(** * CreatorLab: a shallow embedding of the T-shirt configurator

    The development follows the TypeScript sources of the repository:

    - [Js]      the JavaScript values the code relies on: strings as
                sequences of UTF-16 code units, truthiness, [trim], [||];
    - [Types]   [src/types.ts];
    - [Gemini]  [enhancePrompt] of [src/services/geminiService.ts];
    - [App]     the state, handlers and controls of [src/App.tsx] and
                [src/components/DesignControls.tsx];
    - [Viewer]  the mesh builder, colour effect and texture binder of
                [src/components/ThreeViewer.tsx];
    - [Spec]    the tables of the specification and the invariants used
                in the proofs;
    - [Samples] concrete inputs on which the theorems are exercised.

    JavaScript numbers that hold measures (radii, opacities, UVs) are
    IEEE-754 binary64 values and are embedded as primitive floats, with
    the rounding to binary32 of the typed arrays that store UVs; the
    quantity counter holds small integers and is embedded in [Z]. *)

From Stdlib Require Import SpecFloat FloatOps.
From Stdlib Require Import PrimFloat ZArith NArith Lia Bool Ascii String.
From stdpp Require Import base option list gmap strings.

Set Warnings "-inexact-float".
Set Default Proof Using "Type".

(* ===================================================================== *)
(** ** JavaScript values *)
(* ===================================================================== *)

Module Js.

(** A JavaScript string is a sequence of UTF-16 code units. *)
Definition jsstring : Type := list N.

(** An ASCII literal of the source, as code units. *)
Definition lit (s : string) : jsstring :=
  (fun c => N_of_ascii c) <$> list_ascii_of_string s.

(** The double quote and the line feed, which the literals above cannot
    hold. *)
Definition dquote : jsstring := [34%N].
Definition newline : jsstring := [10%N].

(** [ToBoolean] on a string: only the empty string is falsy. *)
Definition truthy (s : jsstring) : bool :=
  match s with
  | [] => false
  | _ :: _ => true
  end.

(** [ToBoolean] on [string | null] and [string | undefined]. *)
Definition truthy_opt (o : option jsstring) : bool :=
  match o with
  | Some s => truthy s
  | None => false
  end.

(** [a || b] on strings. *)
Definition or_else (a : option jsstring) (b : jsstring) : jsstring :=
  match a with
  | Some s => if truthy s then s else b
  | None => b
  end.

(** [a === b] on strings. *)
Definition strict_eq (a b : jsstring) : bool := bool_decide (a = b).

(** ECMAScript's WhiteSpace and LineTerminator code points, the ones
    [String.prototype.trim] strips: TAB, LF, VT, FF, CR, SP, NBSP, the
    Unicode space separators, LS, PS and the byte-order mark. *)
Definition isWhiteSpace (c : N) : bool :=
  ((0x0009 <=? c) && (c <=? 0x000D)
   || (c =? 0x0020) || (c =? 0x00A0) || (c =? 0x1680)
   || ((0x2000 <=? c) && (c <=? 0x200A))
   || (c =? 0x2028) || (c =? 0x2029) || (c =? 0x202F)
   || (c =? 0x205F) || (c =? 0x3000) || (c =? 0xFEFF))%N.

Fixpoint trimStart (s : jsstring) : jsstring :=
  match s with
  | [] => []
  | c :: rest => if isWhiteSpace c then trimStart rest else s
  end.

Definition trimEnd (s : jsstring) : jsstring :=
  reverse (trimStart (reverse s)).

(** [s.trim()] *)
Definition trim (s : jsstring) : jsstring := trimEnd (trimStart s).

(** A string is blank when it is empty or holds white space only. *)
Definition blank (s : jsstring) : bool := forallb isWhiteSpace s.

(** A response whose text is undefined, empty or white space only. *)
Definition no_text (text : option jsstring) : bool :=
  match text with
  | Some t => blank t
  | None => true
  end.

(** The settled state of a [Promise<A>]: resolved with a value, or
    rejected with an error whose [message] may be missing. *)
Inductive Settled (A : Type) : Type :=
| Resolved (value : A)
| Rejected (message : option jsstring).
Arguments Resolved {A} value.
Arguments Rejected {A} message.

End Js.

(* ===================================================================== *)
(** ** [src/types.ts] *)
(* ===================================================================== *)

Module Types.
Import Js.

Inductive Theme : Type :=
| CYBERPUNK | ANIME | MINIMALIST | VAPORWAVE | RETRO | NATURE | ABSTRACT.

Definition Theme_value (t : Theme) : jsstring :=
  match t with
  | CYBERPUNK => lit "Cyberpunk"
  | ANIME => lit "Anime"
  | MINIMALIST => lit "Minimalist"
  | VAPORWAVE => lit "Vaporwave"
  | RETRO => lit "Retro 80s"
  | NATURE => lit "Nature/Floral"
  | ABSTRACT => lit "Abstract"
  end.

Inductive ShirtSize : Type := S_ | M_ | L_ | XL_ | XXL_.

Inductive SleeveLength : Type := SLEEVELESS | SHORT | LONG.

Definition SleeveLength_value (s : SleeveLength) : jsstring :=
  match s with
  | SLEEVELESS => lit "Sleeveless"
  | SHORT => lit "Short Sleeve"
  | LONG => lit "Long Sleeve"
  end.

Inductive FabricType : Type := COTTON | POLYESTER | SILK.

Definition FabricType_value (f : FabricType) : jsstring :=
  match f with
  | COTTON => lit "Premium Cotton"
  | POLYESTER => lit "Performance Poly"
  | SILK => lit "Silk Blend"
  end.

Record DesignState : Type := mkDesignState {
  theme : Theme;
  prompt : jsstring;
  generatedImageBase64 : option jsstring;
  uploadedImage : bool;
  isGenerating : bool;
  shirtColor : jsstring;
  size : ShirtSize;
  sleeveLength : SleeveLength;
  fabric : FabricType;
  quantity : Z
}.

Definition DEFAULT_SHIRT_COLOR : jsstring := lit "#1e293b".

End Types.

(* ===================================================================== *)
(** ** [src/services/geminiService.ts]: prompt enhancement *)
(* ===================================================================== *)

Module Gemini.
Import Js Types.

(** The argument of [ai.models.generateContent]. *)
Record Request : Type := mkRequest {
  model : jsstring;
  contents : jsstring
}.

(** What the awaited [generateContent] call does: it yields a response
    whose [text] may be undefined, or it throws. *)
Inductive Outcome : Type :=
| Responds (text : option jsstring)
| Throws.

(** The run of an async service function: the requests it sent, in
    order, and how its promise settled. *)
Record Run : Type := mkRun {
  sent : list Request;
  settled : Settled jsstring
}.

Definition instruction (theme : Theme) : jsstring :=
  lit "Act as an expert art director. Rewrite the following T-shirt design prompt to be more descriptive, artistic, and suitable for a high-quality vector illustration in the style of "
  ++ dquote ++ Theme_value theme ++ dquote ++ lit ". " ++ newline
  ++ lit "  Keep it concise (under 40 words). " ++ newline
  ++ lit "  Maintain the original subject matter but make it sound professional."
  ++ newline
  ++ lit "  Output ONLY the enhanced prompt text.".

Definition enhanceRequest (currentPrompt : jsstring) (theme : Theme) : Request :=
  {| model := lit "gemini-2.5-flash";
     contents := instruction theme ++ newline ++ newline
                 ++ lit "Input Prompt: " ++ dquote ++ currentPrompt ++ dquote |}.

(** [enhancePrompt], with the module constant [GEMINI_API_KEY] and the
    behaviour of the remote model as parameters. *)
Definition enhancePrompt (GEMINI_API_KEY : jsstring)
    (generateContent : Request -> Outcome)
    (currentPrompt : jsstring) (theme : Theme) : Run :=
  if negb (truthy GEMINI_API_KEY) then
    {| sent := []; settled := Rejected (Some (lit "API Key is missing.")) |}
  else
    let request := enhanceRequest currentPrompt theme in
    {| sent := [request];
       settled :=
         match generateContent request with
         | Responds text => Resolved (or_else (trim <$> text) currentPrompt)
         | Throws => Resolved currentPrompt
         end |}.

End Gemini.

(* ===================================================================== *)
(** ** [src/App.tsx] and [src/components/DesignControls.tsx] *)
(* ===================================================================== *)

Module App.
Import Js Types.

(** [Partial<DesignState>]: the fields an update names. *)
Record Updates : Type := mkUpdates {
  u_theme : option Theme;
  u_prompt : option jsstring;
  u_generatedImageBase64 : option (option jsstring);
  u_uploadedImage : option bool;
  u_isGenerating : option bool;
  u_shirtColor : option jsstring;
  u_size : option ShirtSize;
  u_sleeveLength : option SleeveLength;
  u_fabric : option FabricType;
  u_quantity : option Z
}.

Definition no_updates : Updates :=
  mkUpdates None None None None None None None None None None.

(** [{ ...prev, ...updates }] *)
Definition spread (prev : DesignState) (updates : Updates) : DesignState :=
  {| theme := default (theme prev) (u_theme updates);
     prompt := default (prompt prev) (u_prompt updates);
     generatedImageBase64 :=
       default (generatedImageBase64 prev) (u_generatedImageBase64 updates);
     uploadedImage := default (uploadedImage prev) (u_uploadedImage updates);
     isGenerating := default (isGenerating prev) (u_isGenerating updates);
     shirtColor := default (shirtColor prev) (u_shirtColor updates);
     size := default (size prev) (u_size updates);
     sleeveLength := default (sleeveLength prev) (u_sleeveLength updates);
     fabric := default (fabric prev) (u_fabric updates);
     quantity := default (quantity prev) (u_quantity updates) |}.

(** The four [useState] cells of [App]. *)
Record AppState : Type := mkAppState {
  designState : DesignState;
  error : option jsstring;
  isGeneratingDescription : bool;
  isEnhancing : bool
}.

Definition initial : AppState :=
  {| designState :=
       {| theme := CYBERPUNK;
          prompt := [];
          generatedImageBase64 := None;
          uploadedImage := false;
          isGenerating := false;
          shirtColor := DEFAULT_SHIRT_COLOR;
          size := L_;
          sleeveLength := SHORT;
          fabric := COTTON;
          quantity := 1 |};
     error := None;
     isGeneratingDescription := false;
     isEnhancing := false |}.

(** The calls that leave the component: the three AI services, and the
    browser's file reader and fetch behind an upload. *)
Inductive Call : Type :=
| GenerateCreativePrompt (theme : Theme)
| EnhancePrompt (prompt : jsstring) (theme : Theme)
| GenerateTShirtDesign (theme : Theme) (userPrompt shirtColorHex : jsstring)
| ReadAsDataURL
| FetchImage (url : jsstring).

(** The observable steps of a handler: state setter calls and console
    output. *)
Inductive Action : Type :=
| SetDesignState (updates : Updates)
| SetError (e : option jsstring)
| SetIsGeneratingDescription (b : bool)
| SetIsEnhancing (b : bool)
| ConsoleError.

(** A handler runs its synchronous part, and may then await one call;
    what it does after the call settles is fixed by the values its
    closure captured when it was invoked. *)
Record Handler : Type := mkHandler {
  sync : list Action;
  awaits : option (Call * (Settled jsstring -> list Action))
}.

Definition idle : Handler := {| sync := []; awaits := None |}.

Definition apply_action (a : Action) (s : AppState) : AppState :=
  match a with
  | SetDesignState updates =>
      {| designState := spread (designState s) updates;
         error := error s;
         isGeneratingDescription := isGeneratingDescription s;
         isEnhancing := isEnhancing s |}
  | SetError e =>
      {| designState := designState s;
         error := e;
         isGeneratingDescription := isGeneratingDescription s;
         isEnhancing := isEnhancing s |}
  | SetIsGeneratingDescription b =>
      {| designState := designState s;
         error := error s;
         isGeneratingDescription := b;
         isEnhancing := isEnhancing s |}
  | SetIsEnhancing b =>
      {| designState := designState s;
         error := error s;
         isGeneratingDescription := isGeneratingDescription s;
         isEnhancing := b |}
  | ConsoleError => s
  end.

Definition run (actions : list Action) (s : AppState) : AppState :=
  foldl (fun s a => apply_action a s) s actions.

Section Render.

(** The state a render closes over. *)
Variable app : AppState.

(** [updateState]: a functional merge, and the error is cleared when the
    closure saw one. *)
Definition updateState (updates : Updates) : list Action :=
  SetDesignState updates ::
  (if truthy_opt (error app) then [SetError None] else []).

Definition handleAutoDescription : Handler :=
  {| sync := [SetIsGeneratingDescription true; SetError None];
     awaits := Some (GenerateCreativePrompt (theme (designState app)),
       fun r =>
         match r with
         | Resolved creativePrompt =>
             updateState (mkUpdates None (Some creativePrompt) None None None
                                    None None None None None)
             ++ [SetIsGeneratingDescription false]
         | Rejected _ =>
             [ConsoleError;
              SetError (Some (lit "Failed to generate description via AI."));
              SetIsGeneratingDescription false]
         end) |}.

Definition handleEnhancePrompt : Handler :=
  if negb (truthy (trim (prompt (designState app)))) then idle
  else
    {| sync := [SetIsEnhancing true; SetError None];
       awaits := Some (EnhancePrompt (prompt (designState app))
                                     (theme (designState app)),
         fun r =>
           match r with
           | Resolved enhanced =>
               updateState (mkUpdates None (Some enhanced) None None None
                                      None None None None None)
               ++ [SetIsEnhancing false]
           | Rejected _ =>
               [ConsoleError;
                SetError (Some (lit "Failed to enhance prompt."));
                SetIsEnhancing false]
           end) |}.

Definition handleGenerateArt : Handler :=
  if negb (truthy (prompt (designState app))) then idle
  else
    {| sync :=
         updateState (mkUpdates None None None None (Some true)
                                None None None None None)
         ++ [SetError None];
       awaits := Some (GenerateTShirtDesign (theme (designState app))
                                            (prompt (designState app))
                                            (shirtColor (designState app)),
         fun r =>
           match r with
           | Resolved imageBase64 =>
               updateState (mkUpdates None None (Some (Some imageBase64))
                                      (Some false) (Some false)
                                      None None None None None)
           | Rejected message =>
               [ConsoleError;
                SetError (Some (or_else message
                  (lit "Failed to generate design. Please try again.")))]
               ++ updateState (mkUpdates None None None None (Some false)
                                         None None None None None)
           end) |}.

Definition handleUploadImage (imageData : option jsstring) : list Action :=
  if truthy_opt imageData then
    updateState (mkUpdates None None (Some imageData) (Some true) None
                           None None None None None)
  else
    updateState (mkUpdates None None (Some None) (Some false) None
                           None None None None None).

(** [disabled] of the Enhance, Random Idea and Generate Design buttons. *)
Definition enhanceDisabled : bool :=
  isEnhancing app || negb (truthy (trim (prompt (designState app)))).

Definition ideaDisabled : bool := isGeneratingDescription app.

Definition generateDisabled : bool :=
  isGenerating (designState app)
  || negb (truthy (trim (prompt (designState app)))).

(** What the user can do on the controls panel. *)
Inductive Event : Type :=
| ClickTheme (t : Theme)
| ClickEnhance
| ClickRandomIdea
| EditPrompt (value : jsstring)
| ClickSuggestion (webformatURL : jsstring)
| ClickGenerate
| SelectFile (isImage : bool)
| ClickRemoveUpload
| ClickSleeve (length : SleeveLength)
| ClickFabric (f : FabricType)
| ClickColor (hex : jsstring)
| ClickSize (s : ShirtSize)
| ClickQtyMinus
| ClickQtyPlus
| ClickDownload.

Definition sync_only (actions : list Action) : Handler :=
  {| sync := actions; awaits := None |}.

(** [handleFileSelect]: the reader's [onload] passes the data URL on; a
    failed read calls nothing. *)
Definition onFileRead (r : Settled jsstring) : list Action :=
  match r with
  | Resolved result => handleUploadImage (Some result)
  | Rejected _ => []
  end.

(** [handlePixabayImageSelect]: the same once the image is fetched and
    read; a failure is logged. *)
Definition onSuggestionRead (r : Settled jsstring) : list Action :=
  match r with
  | Resolved result => handleUploadImage (Some result)
  | Rejected _ => [ConsoleError]
  end.

(** The handler each control is wired to; a disabled button fires
    nothing. *)
Definition fire (e : Event) : Handler :=
  match e with
  | ClickTheme t =>
      sync_only (updateState (mkUpdates (Some t) None None None None
                                        None None None None None))
  | ClickEnhance => if enhanceDisabled then idle else handleEnhancePrompt
  | ClickRandomIdea => if ideaDisabled then idle else handleAutoDescription
  | EditPrompt value =>
      sync_only (updateState (mkUpdates None (Some value) None None None
                                        None None None None None))
  | ClickSuggestion url =>
      {| sync := []; awaits := Some (FetchImage url, onSuggestionRead) |}
  | ClickGenerate => if generateDisabled then idle else handleGenerateArt
  | SelectFile isImage =>
      if isImage then {| sync := []; awaits := Some (ReadAsDataURL, onFileRead) |}
      else idle
  | ClickRemoveUpload => sync_only (handleUploadImage None)
  | ClickSleeve length =>
      sync_only (updateState (mkUpdates None None None None None
                                        None None (Some length) None None))
  | ClickFabric f =>
      sync_only (updateState (mkUpdates None None None None None
                                        None None None (Some f) None))
  | ClickColor hex =>
      sync_only (updateState (mkUpdates None None None None None
                                        (Some hex) None None None None))
  | ClickSize s =>
      sync_only (updateState (mkUpdates None None None None None
                                        None (Some s) None None None))
  | ClickQtyMinus =>
      sync_only (updateState (mkUpdates None None None None None
        None None None None
        (Some (Z.max 1 (quantity (designState app) - 1))%Z)))
  | ClickQtyPlus =>
      sync_only (updateState (mkUpdates None None None None None
        None None None None
        (Some (quantity (designState app) + 1)%Z)))
  | ClickDownload => idle
  end.

End Render.

(** The running page: the state, and the continuations of the handlers
    whose awaited call has not settled yet. *)
Record Page : Type := mkPage {
  state : AppState;
  inflight : list (Settled jsstring -> list Action)
}.

Definition start : Page := {| state := initial; inflight := [] |}.

(** An event runs the synchronous part of its handler on the current
    render and parks the rest. *)
Definition dispatch (e : Event) (p : Page) : Page :=
  let h := fire (state p) e in
  {| state := run (sync h) (state p);
     inflight :=
       match awaits h with
       | Some (_, k) => inflight p ++ [k]
       | None => inflight p
       end |}.

(** The [i]-th pending call settles with [r]: its continuation runs. *)
Definition settle (i : nat) (r : Settled jsstring) (p : Page) : Page :=
  match inflight p !! i with
  | Some k => {| state := run (k r) (state p); inflight := delete i (inflight p) |}
  | None => p
  end.

Inductive Step : Type :=
| User (e : Event)
| Settle (i : nat) (r : Settled jsstring).

Definition step (p : Page) (s : Step) : Page :=
  match s with
  | User e => dispatch e p
  | Settle i r => settle i r p
  end.

Definition steps (p : Page) (l : list Step) : Page := foldl step p l.

(** The calls a sequence of handlers issued. *)
Definition call_of (h : Handler) : list Call :=
  match awaits h with
  | Some (c, _) => [c]
  | None => []
  end.

End App.

(* ===================================================================== *)
(** ** [src/components/ThreeViewer.tsx] *)
(* ===================================================================== *)

Module Viewer.
Import Js Types.

Definition Math_PI : float := 3.141592653589793%float.

Record Vector3 : Type := vec3 { vx : float; vy : float; vz : float }.

(** One entry of a geometry's attribute buffers: [attributes.position]
    and [attributes.uv] have the same [count]. *)
Record Vertex : Type := mkVertex {
  pos : Vector3;
  uv : float * float
}.

(** The geometry constructor calls of the source, with the arguments as
    they are passed; an argument left out is [None]. *)
Inductive Shape : Type :=
| CylinderGeometry (radiusTop radiusBottom height : float)
    (radialSegments : nat) (heightSegments : option nat)
    (openEnded : option bool) (thetaStart thetaLength : option float)
| TorusGeometry (radius tube : float) (radialSegments tubularSegments : nat)
| SphereGeometry (radius : float) (widthSegments heightSegments : nat)
    (phiStart phiLength thetaStart thetaLength : float).

Record BufferGeometry : Type := mkGeometry {
  shape : Shape;
  attributes : list Vertex
}.

Inductive Side : Type := FrontSide | BackSide | DoubleSide.

Inductive ColorSpace : Type :=
| NoColorSpace | SRGBColorSpace | LinearSRGBColorSpace.

Record Texture : Type := mkTexture {
  image : jsstring;
  colorSpace : ColorSpace;
  flipY : bool
}.

(** A material colour: the renderer's default white, or the CSS style
    string it was last set from. *)
Inductive Color : Type :=
| White
| Style (style : jsstring).

(** The fields of [THREE.MeshStandardMaterial] the component sets. *)
Record Material : Type := mkMaterial {
  color : Color;
  roughness : float;
  metalness : float;
  map : option Texture;
  transparent : bool;
  opacity : float;
  side : Side;
  depthTest : bool;
  depthWrite : bool;
  polygonOffset : bool;
  polygonOffsetFactor : float;
  needsUpdate : bool
}.

(** The source variable a mesh of the garment is bound to. *)
Inductive Part : Type :=
| torso | collar | leftArm | rightArm | leftCap | rightCap | printMesh.

#[global] Instance Part_eq_dec : EqDecision Part.
Proof. solve_decision. Defined.

(** A [THREE.Mesh]. [addr] stands for the identity of the JavaScript
    object; [material] is the address of a material object, which several
    meshes may share. *)
Record Mesh : Type := mkMesh {
  addr : nat;
  part : Part;
  geometry : BufferGeometry;
  material : nat;
  position : Vector3;
  rotation : Vector3;
  scale : Vector3;
  castShadow : bool;
  receiveShadow : bool
}.

Record Props : Type := mkProps {
  shirtColor : jsstring;
  designTexture : option jsstring;
  sleeveLength : SleeveLength;
  fabricType : FabricType
}.

(** What the refs of the component reach: the children of the shirt
    group, the current print mesh, the material objects by address, the
    geometries disposed so far, and the texture loads that have not
    called back yet (URL and address of the material to bind to). *)
Record Refs : Type := mkRefs {
  shirtGroupRef : option (list Mesh);
  printMeshRef : option Mesh;
  materials : gmap nat Material;
  nextAddr : nat;
  disposed : list BufferGeometry;
  loading : list (jsstring * nat)
}.

Definition unmounted : Refs :=
  {| shirtGroupRef := None; printMeshRef := None; materials := ∅;
     nextAddr := 0; disposed := []; loading := [] |}.

Definition zero3 : Vector3 := vec3 0 0 0.
Definition one3 : Vector3 := vec3 1 1 1.

(** *** Material derivation *)

Definition fabricMaterial (fabricType : FabricType) : float * float :=
  let roughness := 0.9%float in
  let metalness := 0.0%float in
  if strict_eq (FabricType_value fabricType) (lit "Performance Poly") then
    (0.5%float, 0.1%float)
  else if strict_eq (FabricType_value fabricType) (lit "Silk Blend") then
    (0.3%float, 0.2%float)
  else (roughness, metalness).

Definition baseMaterial (shirtColor : jsstring) (rm : float * float) : Material :=
  {| color := Style shirtColor;
     roughness := fst rm;
     metalness := snd rm;
     map := None;
     transparent := false;
     opacity := 1;
     side := FrontSide;
     depthTest := true;
     depthWrite := true;
     polygonOffset := false;
     polygonOffsetFactor := 0;
     needsUpdate := false |}.

Definition printMat (rm : float * float) : Material :=
  {| color := White;
     roughness := fst rm;
     metalness := snd rm;
     map := None;
     transparent := true;
     opacity := 0;
     side := DoubleSide;
     depthTest := true;
     depthWrite := false;
     polygonOffset := true;
     polygonOffsetFactor := (-4)%float;
     needsUpdate := false |}.

(** *** Attribute access and the UV loop *)

Definition getX (g : list Vertex) (i : nat) : float :=
  match g !! i with
  | Some vtx => vx (pos vtx)
  | None => nan
  end.

Definition getY (g : list Vertex) (i : nat) : float :=
  match g !! i with
  | Some vtx => vy (pos vtx)
  | None => nan
  end.

(** [Math.fround]: the binary32 number nearest to a binary64 number
    (ties to even, overflow to infinity), which is what a [Float32Array]
    keeps of a number written to it. Precision 24 and maximal exponent
    128 are those of binary32. *)
Definition fround (x : float) : float :=
  match Prim2SF x with
  | S754_finite s m e =>
      SF2Prim (binary_normalize 24 128 (if s then Z.neg m else Z.pos m) e s)
  | _ => x
  end.

(** [uvAttribute.setXY(i, u, v)]: the attribute's array is a
    [Float32Array], so each number is stored rounded to binary32; a write
    past its end is ignored. *)
Definition setXY (g : list Vertex) (i : nat) (u v : float) : list Vertex :=
  alter (fun vtx => {| pos := pos vtx; uv := (fround u, fround v) |}) i g.

Definition remapStep (g : list Vertex) (i : nat) : list Vertex :=
  let x := getX g i in
  let y := getY g i in
  let u := (x / 0.82 + 0.5)%float in
  let v := (y / 0.7 + 0.5)%float in
  setXY g i u v.

(** [for (let i = 0; i < posAttribute.count; i++) ...] *)
Definition remapUV (g : list Vertex) : list Vertex :=
  foldl remapStep g (seq 0 (length g)).

(** [geometry.translate(tx, ty, tz)] *)
Definition translate (tx ty tz : float) (g : BufferGeometry) : BufferGeometry :=
  {| shape := shape g;
     attributes :=
       (fun vtx =>
          {| pos := vec3 (vx (pos vtx) + tx) (vy (pos vtx) + ty)
                         (vz (pos vtx) + tz);
             uv := uv vtx |}) <$> attributes g |}.

Section Build.

(** The vertex buffers the rendering library generates for a geometry
    constructor call. *)
Variable three : Shape -> list Vertex.

Definition newGeometry (s : Shape) : BufferGeometry :=
  {| shape := s; attributes := three s |}.

(** *** The texture binder *)

Definition clearMap (m : Material) : Material :=
  {| color := color m; roughness := roughness m; metalness := metalness m;
     map := None;
     transparent := transparent m;
     opacity := 0;
     side := side m; depthTest := depthTest m; depthWrite := depthWrite m;
     polygonOffset := polygonOffset m;
     polygonOffsetFactor := polygonOffsetFactor m;
     needsUpdate := true |}.

(** The callback passed to [TextureLoader.load]. *)
Definition bindMap (tex : Texture) (m : Material) : Material :=
  {| color := color m; roughness := roughness m; metalness := metalness m;
     map := Some {| image := image tex; colorSpace := SRGBColorSpace;
                    flipY := true |};
     transparent := transparent m;
     opacity := 1;
     side := side m; depthTest := depthTest m; depthWrite := depthWrite m;
     polygonOffset := polygonOffset m;
     polygonOffsetFactor := polygonOffsetFactor m;
     needsUpdate := true |}.

Definition with_materials (ms : gmap nat Material) (st : Refs) : Refs :=
  {| shirtGroupRef := shirtGroupRef st; printMeshRef := printMeshRef st;
     materials := ms; nextAddr := nextAddr st; disposed := disposed st;
     loading := loading st |}.

Definition with_loading (l : list (jsstring * nat)) (st : Refs) : Refs :=
  {| shirtGroupRef := shirtGroupRef st; printMeshRef := printMeshRef st;
     materials := materials st; nextAddr := nextAddr st;
     disposed := disposed st; loading := l |}.

Definition updateTexture (texUrl : option jsstring) (mesh : option Mesh)
    (st : Refs) : Refs :=
  match mesh with
  | None => st
  | Some mesh =>
      let mat := material mesh in
      match texUrl with
      | Some url =>
          if truthy url then with_loading (loading st ++ [(url, mat)]) st
          else with_materials (alter clearMap mat (materials st)) st
      | None => with_materials (alter clearMap mat (materials st)) st
      end
  end.

(** The [i]-th pending load has decoded its image into [tex]: the
    callback runs on the material it captured. *)
Definition loaded (i : nat) (tex : Texture) (st : Refs) : Refs :=
  match loading st !! i with
  | Some (_, mat) =>
      with_loading (delete i (loading st))
        (with_materials (alter (bindMap tex) mat (materials st)) st)
  | None => st
  end.

(** The [i]-th pending load fails: no callback was given for that. *)
Definition loadFailed (i : nat) (st : Refs) : Refs :=
  with_loading (delete i (loading st)) st.

(** *** The mesh builder *)

(** [while (group.children.length > 0) ...]: each pass disposes the
    geometry of the first child and removes that child. *)
Fixpoint clearGroup (children : list Mesh) (log : list BufferGeometry)
  : list Mesh * list BufferGeometry :=
  match children with
  | [] => ([], log)
  | child :: rest => clearGroup rest (log ++ [geometry child])
  end.

Definition sleeveParts (sleeveLength : SleeveLength) (material a : nat)
  : list Mesh :=
  if negb (strict_eq (SleeveLength_value sleeveLength) (lit "Sleeveless")) then
    let isLong := strict_eq (SleeveLength_value sleeveLength) (lit "Long Sleeve") in
    let sleeveLen := if isLong then 1.6%float else 0.6%float in
    let sleeveRadTop := 0.22%float in
    let sleeveRadBot := if isLong then 0.15%float else 0.2%float in
    let armGeo :=
      translate 0 (- sleeveLen / 2) 0
        (newGeometry (CylinderGeometry sleeveRadTop sleeveRadBot sleeveLen 32
                                       None None None None)) in
    [ {| addr := a; part := leftArm; geometry := armGeo; material := material;
         position := vec3 0.5 0.65 0;
         rotation := vec3 0 0 (Math_PI / 3.5);
         scale := one3; castShadow := true; receiveShadow := true |};
      {| addr := a + 1; part := rightArm; geometry := armGeo;
         material := material;
         position := vec3 (-0.5) 0.65 0;
         rotation := vec3 0 0 (- Math_PI / 3.5);
         scale := one3; castShadow := true; receiveShadow := true |} ]
  else
    let capGeo :=
      newGeometry (SphereGeometry 0.23 16 16 0 (Math_PI * 2) 0 (Math_PI / 2)) in
    [ {| addr := a; part := leftCap; geometry := capGeo; material := material;
         position := vec3 0.45 0.6 0; rotation := zero3;
         scale := vec3 1 0.5 0.5;
         castShadow := false; receiveShadow := false |};
      {| addr := a + 1; part := rightCap; geometry := capGeo;
         material := material;
         position := vec3 (-0.45) 0.6 0; rotation := zero3;
         scale := vec3 1 0.5 0.5;
         castShadow := false; receiveShadow := false |} ].

Definition printGeo : BufferGeometry :=
  let g := newGeometry (CylinderGeometry 0.56 0.56 0.7 32 (Some 1) (Some true)
                                         (Some (-0.8)%float) (Some 1.6%float)) in
  {| shape := shape g; attributes := remapUV (attributes g) |}.

Definition torsoMesh (a material : nat) : Mesh :=
  {| addr := a; part := torso;
     geometry := newGeometry (CylinderGeometry 0.55 0.55 1.5 32
                                               None None None None);
     material := material;
     position := zero3; rotation := zero3; scale := vec3 1 1 0.5;
     castShadow := true; receiveShadow := true |}.

Definition collarMesh (a material : nat) : Mesh :=
  {| addr := a; part := collar;
     geometry := newGeometry (TorusGeometry 0.22 0.04 16 32);
     material := material;
     position := vec3 0 0.75 0;
     rotation := vec3 (Math_PI / 2) 0 0;
     scale := one3; castShadow := false; receiveShadow := false |}.

Definition decalMesh (a material : nat) : Mesh :=
  {| addr := a; part := printMesh; geometry := printGeo;
     material := material;
     position := zero3; rotation := zero3; scale := vec3 1 1 0.5;
     castShadow := false; receiveShadow := false |}.

(** The effect that rebuilds the geometry when the sleeve or the fabric
    changes. It empties the group, creates the shared material at
    address [a] and the decal material at [a + 5], adds torso, collar,
    sleeves or caps and the decal, and binds the current texture. *)
Definition rebuild (p : Props) (st : Refs) : Refs :=
  match shirtGroupRef st with
  | None => st
  | Some children =>
      let cleared := clearGroup children (disposed st) in
      let rm := fabricMaterial (fabricType p) in
      let a := nextAddr st in
      let material := a in
      let decal := decalMesh (a + 6) (a + 5) in
      updateTexture (designTexture p) (Some decal)
        {| shirtGroupRef :=
             Some (fst cleared
                   ++ [torsoMesh (a + 1) material; collarMesh (a + 2) material]
                   ++ sleeveParts (sleeveLength p) material (a + 3)
                   ++ [decal]);
           printMeshRef := Some decal;
           materials :=
             <[a + 5 := printMat rm]>
               (<[material := baseMaterial (shirtColor p) rm]> (materials st));
           nextAddr := a + 7;
           disposed := snd cleared;
           loading := loading st |}
  end.

(** *** The colour effect *)

Definition setColor (c : jsstring) (m : Material) : Material :=
  {| color := Style c; roughness := roughness m; metalness := metalness m;
     map := map m; transparent := transparent m; opacity := opacity m;
     side := side m; depthTest := depthTest m; depthWrite := depthWrite m;
     polygonOffset := polygonOffset m;
     polygonOffsetFactor := polygonOffsetFactor m;
     needsUpdate := needsUpdate m |}.

(** [child !== printMeshRef.current] *)
Definition notPrintMesh (ref : option Mesh) (child : Mesh) : bool :=
  match ref with
  | Some m => negb (addr child =? addr m)
  | None => true
  end.

Definition colorChild (ref : option Mesh) (c : jsstring)
    (ms : gmap nat Material) (child : Mesh) : gmap nat Material :=
  if notPrintMesh ref child then alter (setColor c) (material child) ms
  else ms.

Definition colorEffect (p : Props) (st : Refs) : Refs :=
  match shirtGroupRef st with
  | Some children =>
      with_materials
        (foldl (colorChild (printMeshRef st) (shirtColor p)) (materials st)
               children) st
  | None => st
  end.

(** *** The remaining effects, and the life of the component *)

(** The scene set-up, which gives the refs an empty shirt group when the
    container element is there. *)
Definition initScene (container : bool) (st : Refs) : Refs :=
  if container then
    {| shirtGroupRef := Some []; printMeshRef := printMeshRef st;
       materials := materials st; nextAddr := nextAddr st;
       disposed := disposed st; loading := loading st |}
  else st.

Definition textureEffect (p : Props) (st : Refs) : Refs :=
  updateTexture (designTexture p) (printMeshRef st) st.

Inductive Update : Type :=
| Mount (container : bool)
| Rebuild (p : Props)
| Recolor (p : Props)
| Retexture (p : Props)
| Loaded (i : nat) (tex : Texture)
| LoadFailed (i : nat).

Definition update (st : Refs) (u : Update) : Refs :=
  match u with
  | Mount container => initScene container st
  | Rebuild p => rebuild p st
  | Recolor p => colorEffect p st
  | Retexture p => textureEffect p st
  | Loaded i tex => loaded i tex st
  | LoadFailed i => loadFailed i st
  end.

Definition updates (st : Refs) (l : list Update) : Refs := foldl update st l.

End Build.

(** The parts of a group that are bound to one of the given source
    variables. *)
Definition is_part (which : list Part) (m : Mesh) : bool :=
  bool_decide (part m ∈ which).

Definition sleeveCylinders (children : list Mesh) : list Mesh :=
  List.filter (is_part [leftArm; rightArm]) children.

Definition shoulderCaps (children : list Mesh) : list Mesh :=
  List.filter (is_part [leftCap; rightCap]) children.

Definition printDecals (children : list Mesh) : list Mesh :=
  List.filter (is_part [printMesh]) children.

Definition shirtParts (children : list Mesh) : list Mesh :=
  List.filter (fun m => negb (is_part [printMesh] m)) children.

End Viewer.

(* ===================================================================== *)
(** ** The specification's tables and the invariants of the proofs *)
(* ===================================================================== *)

Module Spec.
Import Js Types.

(** The material table of the specification, section 4.1. *)
Definition fabricTable (f : FabricType) : float * float :=
  match f with
  | COTTON => (0.9%float, 0.0%float)
  | POLYESTER => (0.5%float, 0.1%float)
  | SILK => (0.3%float, 0.2%float)
  end.

(** The sleeve table of the specification: length, top radius, bottom
    radius. *)
Definition sleeveTable (s : SleeveLength) : option (float * float * float) :=
  match s with
  | SLEEVELESS => None
  | SHORT => Some (0.6%float, 0.22%float, 0.20%float)
  | LONG => Some (1.6%float, 0.22%float, 0.15%float)
  end.

(** Whether the garment has sleeves. *)
Definition sleeved (s : SleeveLength) : bool :=
  match s with
  | SLEEVELESS => false
  | SHORT | LONG => true
  end.

(** The UV formula of the specification. *)
Definition decalUV (p : Viewer.Vector3) : float * float :=
  ((Viewer.vx p / 0.82 + 0.5)%float, (Viewer.vy p / 0.7 + 0.5)%float).

(** The quantity shown on the page. *)
Definition qty (p : App.Page) : Z := quantity (App.designState (App.state p)).

(** An action keeps the quantity floor when it leaves the quantity alone
    or sets it to at least 1. *)
Definition keeps_floor (a : App.Action) : Prop :=
  match a with
  | App.SetDesignState updates =>
      match App.u_quantity updates with
      | Some q => (1 <= q)%Z
      | None => True
      end
  | _ => True
  end.

(** The invariant of the page: the quantity is at least 1, and so it
    stays whatever the pending continuations do. *)
Definition floor_inv (p : App.Page) : Prop :=
  (1 <= qty p)%Z /\
  Forall (fun k => forall r, Forall keeps_floor (k r)) (App.inflight p).

(** The same pair as the UV attribute stores it. *)
Definition storedUV (p : Viewer.Vector3) : float * float :=
  (Viewer.fround (decalUV p).1, Viewer.fround (decalUV p).2).

(** The vertex the UV loop leaves in place of [vtx]. *)
Definition remapped (vtx : Viewer.Vertex) : Viewer.Vertex :=
  {| Viewer.pos := Viewer.pos vtx; Viewer.uv := storedUV (Viewer.pos vtx) |}.

(** The updates that neither set the scene up nor rebuild the mesh. *)
Definition keeps_mesh (u : Viewer.Update) : bool :=
  match u with
  | Viewer.Mount _ | Viewer.Rebuild _ => false
  | _ => true
  end.

(** The shape of a non-empty shirt group: the decal comes last, it is the
    mesh [printMeshRef] holds, and no other child is that object or uses
    its material; every child's material object exists. *)
Definition group_inv (st : Viewer.Refs) : Prop :=
  forall children, Viewer.shirtGroupRef st = Some children ->
    children = [] \/
    exists parts decal,
      children = parts ++ [decal] /\
      Viewer.printMeshRef st = Some decal /\
      Viewer.part decal = Viewer.printMesh /\
      is_Some (Viewer.materials st !! Viewer.material decal) /\
      Forall (fun m =>
                Viewer.part m <> Viewer.printMesh /\
                Viewer.addr m <> Viewer.addr decal /\
                Viewer.material m <> Viewer.material decal /\
                is_Some (Viewer.materials st !! Viewer.material m)) parts.

(** Whether the colour effect recolours the material at address [k]
    through the child [m]. *)
Definition recolours (ref : option Viewer.Mesh) (k : nat) (m : Viewer.Mesh)
  : bool :=
  Viewer.notPrintMesh ref m && (Viewer.material m =? k).

End Spec.

(* ===================================================================== *)
(** ** Sample inputs *)
(* ===================================================================== *)

Module Samples.
Import Js Types.

Definition sample_key : jsstring := lit "k".
Definition sample_prompt : jsstring := lit "a wolf".

(** A model that decorates every prompt the same way. *)
Definition sample_model (_ : Gemini.Request) : Gemini.Outcome :=
  Gemini.Responds (Some (lit "  a majestic wolf  ")).


(** The page after the user typed two spaces and a tab. *)
Definition sample_blank_page : App.Page :=
  App.steps App.start [App.User (App.EditPrompt [32; 32; 9]%N)].

(** The first vertex that the rendering library generates for the decal's
    cylinder sector: [x = 0.56 * sin(-0.8)], [y = 0.35] and
    [z = 0.56 * cos(-0.8)], as the position array holds them (binary32). *)
Definition decal_vertex0 : Viewer.Vertex :=
  {| Viewer.pos := Viewer.vec3 (-0x1.9b5c56p-2) 0x1.666666p-2 0x1.8f84fep-2;
     Viewer.uv := (0, 1)%float |}.

(** A vertex generator that gives every geometry the same two vertices. *)
Definition sample_three (_ : Viewer.Shape) : list Viewer.Vertex :=
  [ {| Viewer.pos := Viewer.vec3 0.41 0.35 0.38; Viewer.uv := (0, 0)%float |};
    {| Viewer.pos := Viewer.vec3 (-0.41) (-0.35) 0.38;
       Viewer.uv := (1, 1)%float |} ].

Definition sample_props : Viewer.Props :=
  {| Viewer.shirtColor := DEFAULT_SHIRT_COLOR;
     Viewer.designTexture := None;
     Viewer.sleeveLength := SHORT;
     Viewer.fabricType := COTTON |}.

(** The refs once the scene is set up. *)
Definition sample_mounted : Viewer.Refs :=
  Viewer.initScene true Viewer.unmounted.

(** The refs after the first build of the default shirt. *)
Definition sample_built : Viewer.Refs :=
  Viewer.rebuild sample_three sample_props sample_mounted.

(** The decal of that shirt. *)
Definition sample_decal : Viewer.Mesh := Viewer.decalMesh sample_three 6 5.

Definition sample_url : jsstring := lit "data:image/png;base64,AAAA".

(** The image behind [sample_url], decoded. *)
Definition sample_texture : Viewer.Texture :=
  {| Viewer.image := sample_url;
     Viewer.colorSpace := Viewer.NoColorSpace;
     Viewer.flipY := false |}.

(** The shirt once an artwork is bound and decoded. *)
Definition sample_textured : Viewer.Refs :=
  Viewer.loaded 0 sample_texture
    (Viewer.updateTexture (Some sample_url) (Some sample_decal) sample_built).

End Samples.

(* ===================================================================== *)
(** * The rest of the services *)
(* ===================================================================== *)

From stdpp Require Import pretty.

(* ===================================================================== *)
(** ** The image-generation API, as both of its callers see it *)
(* ===================================================================== *)

Module OpenAI.
Import Js.

(** The request [fetch] sends to [/v1/images/generations]: the
    authorization header and the fields of the JSON body. *)
Record ImageRequest : Type := mkImageRequest {
  authorization : jsstring;
  model : jsstring;
  prompt : jsstring;
  n : N;
  size : jsstring;
  response_format : jsstring;
  quality : jsstring
}.

(** What [response.json()] gives: a body of the documented shape, with
    [error.message] and the [b64_json] fields of [data] (each may be
    missing), or a rejection when the body is not JSON. *)
Inductive Parsed : Type :=
| Json (error_message : option jsstring) (data : option (list (option jsstring)))
| Unparsable (message : option jsstring).

Record Response : Type := mkResponse {
  status : N;
  statusText : jsstring;
  parsed : Parsed
}.

(** [response.ok]: the status is in the range 200-299. *)
Definition ok (r : Response) : bool :=
  ((200 <=? status r) && (status r <=? 299))%N.

(** The awaited [fetch]: it rejects, or it answers. *)
Inductive Fetched : Type :=
| Fails (message : option jsstring)
| Answers (r : Response).

(** A status code inside a template literal. *)
Definition decimal (n : N) : jsstring := lit (pretty n).

(** [errorData?.error?.message], where an unparsable body counts as
    [{}]. *)
Definition error_message_of (p : Parsed) : option jsstring :=
  match p with
  | Json error_message _ => error_message
  | Unparsable _ => None
  end.

(** [data.data && data.data.length > 0 && data.data[0].b64_json] *)
Definition b64_json_of (p : Parsed) : option jsstring :=
  match p with
  | Json _ (Some (Some b64 :: _)) => if truthy b64 then Some b64 else None
  | _ => None
  end.

Definition dataURL (b64 : jsstring) : jsstring :=
  lit "data:image/png;base64," ++ b64.

End OpenAI.

(* ===================================================================== *)
(** ** [src/services/geminiService.ts]: ideas and image generation *)
(* ===================================================================== *)

Module GeminiService.
Import Js Types.

Definition creativeRequest (theme : Theme) : Gemini.Request :=
  {| Gemini.model := lit "gemini-2.5-flash";
     Gemini.contents :=
       lit "You are a visionary fashion designer. Write a creative, vivid, and concise description (max 30 words) for a graphic T-shirt design based on the theme: "
       ++ dquote ++ Theme_value theme ++ dquote ++ lit ". " ++ newline
       ++ lit "  Focus on visual elements, colors, and style. " ++ newline
       ++ lit "  Output ONLY the description. Do not include quotes or intro text." |}.

(** [generateCreativePrompt], with the module constant and the remote
    model as parameters. *)
Definition generateCreativePrompt (GEMINI_API_KEY : jsstring)
    (generateContent : Gemini.Request -> Gemini.Outcome)
    (theme : Theme) : Gemini.Run :=
  if negb (truthy GEMINI_API_KEY) then
    {| Gemini.sent := [];
       Gemini.settled := Rejected (Some (lit "API Key is missing.")) |}
  else
    let request := creativeRequest theme in
    {| Gemini.sent := [request];
       Gemini.settled :=
         match generateContent request with
         | Gemini.Responds text => Resolved (or_else text [])
         | Gemini.Throws =>
             Rejected (Some (lit "Failed to generate description."))
         end |}.

(** The own properties of [colorMap], in source order. *)
Definition colorMap : list (jsstring * jsstring) :=
  [ (lit "#000000", lit "pure black");
    (lit "#ffffff", lit "pure white");
    (lit "#1e293b", lit "dark navy blue");
    (lit "#ef4444", lit "bright red");
    (lit "#3b82f6", lit "bright blue");
    (lit "#22c55e", lit "bright green");
    (lit "#a855f7", lit "purple");
    (lit "#f59e0b", lit "orange") ].

(** The properties an object literal inherits from [Object.prototype];
    each holds a function or an object, which is truthy. *)
Definition Object_prototype : list jsstring :=
  lit <$> [ "constructor"; "__defineGetter__"; "__defineSetter__";
            "hasOwnProperty"; "__lookupGetter__"; "__lookupSetter__";
            "isPrototypeOf"; "propertyIsEnumerable"; "toString"; "valueOf";
            "__proto__"; "toLocaleString" ]%string.

Fixpoint own_property (o : list (jsstring * jsstring)) (key : jsstring)
  : option jsstring :=
  match o with
  | [] => None
  | (k, v) :: rest => if strict_eq k key then Some v else own_property rest key
  end.

(** What [hexToColorName] returns: a string, or, when the key names an
    inherited property, the function or object found there. *)
Inductive Named : Type :=
| Name (s : jsstring)
| Inherited (property : jsstring).

(** The run of [generateTShirtDesign]: the requests sent and how the
    promise settled. *)
Record Run : Type := mkRun {
  sent : list OpenAI.ImageRequest;
  settled : Settled jsstring
}.

Section Design.

(** [String.prototype.toLowerCase], and the text a template literal
    makes of an inherited property. *)
Variable toLowerCase : jsstring -> jsstring.
Variable inheritedText : jsstring -> jsstring.

(** [colorMap[hex.toLowerCase()] || `color ${hex}`] *)
Definition hexToColorName (hex : jsstring) : Named :=
  let key := toLowerCase hex in
  match own_property colorMap key with
  | Some name => if truthy name then Name name else Name (lit "color " ++ hex)
  | None =>
      if bool_decide (key ∈ Object_prototype) then Inherited key
      else Name (lit "color " ++ hex)
  end.

(** [`${colorName}`] *)
Definition colorText (colorName : Named) : jsstring :=
  match colorName with
  | Name s => s
  | Inherited property => inheritedText property
  end.

Definition fullPrompt (theme : Theme) (userPrompt shirtColorHex : jsstring)
  : jsstring :=
  let colorName := colorText (hexToColorName shirtColorHex) in
  lit "Create a standalone graphic artwork design. " ++ newline
  ++ lit "Theme: " ++ Theme_value theme ++ lit ". " ++ newline
  ++ lit "Subject: " ++ userPrompt ++ lit ". " ++ newline
  ++ lit "Style: Professional vector illustration, high contrast, clean lines, centered composition, square aspect ratio, high quality, masterpiece."
  ++ newline
  ++ lit "IMPORTANT: Generate ONLY the graphic/artwork itself - do NOT include any T-shirt, clothing, fabric, or mockup. The design should be an isolated graphic that can be printed on merchandise."
  ++ newline
  ++ lit "CRITICAL: The background MUST be a solid, flat, uniform "
  ++ colorName ++ lit " color (hex: " ++ shirtColorHex
  ++ lit "). No gradients, no patterns, no textures - just a pure solid "
  ++ colorName
  ++ lit " background filling the entire image behind the artwork.".

Definition designRequest (OPENAI_API_KEY : jsstring) (theme : Theme)
    (userPrompt shirtColorHex : jsstring) : OpenAI.ImageRequest :=
  {| OpenAI.authorization := lit "Bearer " ++ OPENAI_API_KEY;
     OpenAI.model := lit "dall-e-3";
     OpenAI.prompt := fullPrompt theme userPrompt shirtColorHex;
     OpenAI.n := 1;
     OpenAI.size := lit "1024x1024";
     OpenAI.response_format := lit "b64_json";
     OpenAI.quality := lit "hd" |}.

(** [generateTShirtDesign]: every error raised inside the [try] is
    logged and thrown again. *)
Definition generateTShirtDesign (OPENAI_API_KEY : jsstring)
    (fetch : OpenAI.ImageRequest -> OpenAI.Fetched)
    (theme : Theme) (userPrompt shirtColorHex : jsstring) : Run :=
  if negb (truthy OPENAI_API_KEY) then
    {| sent := [];
       settled := Rejected (Some (lit "OpenAI API Key is missing. Please set the OPENAI_API_KEY environment variable.")) |}
  else
    let request := designRequest OPENAI_API_KEY theme userPrompt shirtColorHex in
    {| sent := [request];
       settled :=
         match fetch request with
         | OpenAI.Fails message => Rejected message
         | OpenAI.Answers response =>
             if negb (OpenAI.ok response) then
               let errorMessage :=
                 or_else (OpenAI.error_message_of (OpenAI.parsed response))
                   (lit "HTTP " ++ OpenAI.decimal (OpenAI.status response)
                    ++ lit ": " ++ OpenAI.statusText response) in
               Rejected (Some (lit "OpenAI API Error: " ++ errorMessage))
             else
               match OpenAI.parsed response with
               | OpenAI.Unparsable message => Rejected message
               | OpenAI.Json _ _ =>
                   match OpenAI.b64_json_of (OpenAI.parsed response) with
                   | Some b64 => Resolved (OpenAI.dataURL b64)
                   | None =>
                       Rejected (Some (lit "No image data returned from OpenAI. Please try a different prompt."))
                   end
               end
         end |}.

End Design.

End GeminiService.

(* ===================================================================== *)
(** ** [src/api/generate-image.ts] *)
(* ===================================================================== *)

Module Api.
Import Js.

(** [process.env] *)
Record Env : Type := mkEnv {
  VITE_OPENAI_API_KEY : option jsstring;
  OPENAI_API_KEY : option jsstring
}.

(** The fields the handler reads from [req.body]. *)
Record Body : Type := mkBody {
  prompt : option jsstring;
  size : option jsstring;
  quality : option jsstring
}.

Record VercelRequest : Type := mkRequest {
  method : jsstring;
  body : option Body
}.

Inductive Payload : Type :=
| Ended
| ErrorJson (error : jsstring)
| ImageJson (image : jsstring).

Record VercelResponse : Type := mkVercelResponse {
  headers : list (jsstring * jsstring);
  status : N;
  payload : Payload
}.

(** What a call of the handler did: the response it wrote and the
    requests it sent upstream. *)
Record Handled : Type := mkHandled {
  response : VercelResponse;
  upstream : list OpenAI.ImageRequest
}.

Definition cors : list (jsstring * jsstring) :=
  [ (lit "Access-Control-Allow-Credentials", lit "true");
    (lit "Access-Control-Allow-Origin", lit "*");
    (lit "Access-Control-Allow-Methods",
     lit "GET,OPTIONS,PATCH,DELETE,POST,PUT");
    (lit "Access-Control-Allow-Headers", lit "Content-Type, Authorization") ].

Definition reply (status : N) (payload : Payload) : VercelResponse :=
  {| headers := cors; status := status; payload := payload |}.

(** [a || b] on two values that may be undefined. *)
Definition first_truthy (a b : option jsstring) : option jsstring :=
  if truthy_opt a then a else b.

Section Handler.

(** The message of the [TypeError] that destructuring an undefined
    [req.body] raises. *)
Variable typeErrorMessage : option jsstring.

Definition handler (env : Env) (fetch : OpenAI.ImageRequest -> OpenAI.Fetched)
    (req : VercelRequest) : Handled :=
  if strict_eq (method req) (lit "OPTIONS") then
    {| response := reply 200 Ended; upstream := [] |}
  else if negb (strict_eq (method req) (lit "POST")) then
    {| response := reply 405 (ErrorJson (lit "Method not allowed"));
       upstream := [] |}
  else
    let key := first_truthy (VITE_OPENAI_API_KEY env) (OPENAI_API_KEY env) in
    match key with
    | None =>
        {| response := reply 500 (ErrorJson (lit "OpenAI API key not configured"));
           upstream := [] |}
    | Some OPENAI_API_KEY =>
        if negb (truthy OPENAI_API_KEY) then
          {| response :=
               reply 500 (ErrorJson (lit "OpenAI API key not configured"));
             upstream := [] |}
        else
          match body req with
          | None =>
              {| response :=
                   reply 500 (ErrorJson (or_else typeErrorMessage
                                           (lit "Failed to generate image")));
                 upstream := [] |}
          | Some b =>
              if negb (truthy_opt (prompt b)) then
                {| response := reply 400 (ErrorJson (lit "Prompt is required"));
                   upstream := [] |}
              else
                let request :=
                  {| OpenAI.authorization := lit "Bearer " ++ OPENAI_API_KEY;
                     OpenAI.model := lit "dall-e-3";
                     OpenAI.prompt := default [] (prompt b);
                     OpenAI.n := 1;
                     OpenAI.size := default (lit "1024x1024") (size b);
                     OpenAI.response_format := lit "b64_json";
                     OpenAI.quality := default (lit "hd") (quality b) |} in
                {| upstream := [request];
                   response :=
                     match fetch request with
                     | OpenAI.Fails message =>
                         reply 500 (ErrorJson (or_else message
                                      (lit "Failed to generate image")))
                     | OpenAI.Answers r =>
                         if negb (OpenAI.ok r) then
                           reply (OpenAI.status r)
                             (ErrorJson
                                (or_else (OpenAI.error_message_of (OpenAI.parsed r))
                                   (lit "HTTP " ++ OpenAI.decimal (OpenAI.status r))))
                         else
                           match OpenAI.parsed r with
                           | OpenAI.Unparsable message =>
                               reply 500 (ErrorJson (or_else message
                                            (lit "Failed to generate image")))
                           | OpenAI.Json _ _ =>
                               match OpenAI.b64_json_of (OpenAI.parsed r) with
                               | Some b64 =>
                                   reply 200 (ImageJson (OpenAI.dataURL b64))
                               | None =>
                                   reply 500 (ErrorJson (lit "No image data returned"))
                               end
                           end
                     end |}
          end
    end.

End Handler.

End Api.

(* ===================================================================== *)
(** ** [src/services/pixabayService.ts] and the suggestions panel *)
(* ===================================================================== *)

Module Pixabay.
Import Js.

Record PixabayImage : Type := mkImage {
  id : Z;
  pageURL : jsstring;
  previewURL : jsstring;
  webformatURL : jsstring;
  largeImageURL : jsstring;
  user : jsstring;
  tags : jsstring
}.

(** The awaited [fetch] and [response.json()]: the request fails, or a
    response arrives with its [ok] flag and, when the body parses, its
    [hits]. *)
Inductive Fetched : Type :=
| Fails
| Answers (ok : bool) (hits : option (list PixabayImage)).

(** A call of [searchPixabayImages]: whether it warned, the URLs it
    fetched, whether it logged an error, and the images it resolved
    with. *)
Record Search : Type := mkSearch {
  warned : bool;
  requested : list jsstring;
  logged : bool;
  found : list PixabayImage
}.

Definition quiet (found : list PixabayImage) : Search :=
  {| warned := false; requested := []; logged := false; found := found |}.

Section Service.

Variable PIXABAY_API_KEY : jsstring.

(** [encodeURIComponent], which throws a [URIError] on a lone
    surrogate. *)
Variable encodeURIComponent : jsstring -> option jsstring.

Variable fetch : jsstring -> Fetched.

Definition searchURL (encoded : jsstring) (perPage : N) : jsstring :=
  lit "https://pixabay.com/api/?key=" ++ PIXABAY_API_KEY
  ++ lit "&q=" ++ encoded
  ++ lit "&per_page=" ++ lit (pretty perPage)
  ++ lit "&image_type=photo&safesearch=true".

Definition searchPixabayImages (query : jsstring) (perPage : N) : Search :=
  if negb (truthy PIXABAY_API_KEY) then
    {| warned := true; requested := []; logged := false; found := [] |}
  else if negb (truthy (trim query)) then quiet []
  else
    match encodeURIComponent query with
    | None => {| warned := false; requested := []; logged := true; found := [] |}
    | Some encoded =>
        let url := searchURL encoded perPage in
        match fetch url with
        | Fails =>
            {| warned := false; requested := [url]; logged := true; found := [] |}
        | Answers ok hits =>
            if negb ok then
              {| warned := false; requested := [url]; logged := true;
                 found := [] |}
            else
              match hits with
              | Some hits =>
                  {| warned := false; requested := [url]; logged := false;
                     found := hits |}
              | None =>
                  {| warned := false; requested := [url]; logged := true;
                     found := [] |}
              end
        end
    end.

(** The state of [usePixabaySearch]. *)
Record Suggestions : Type := mkSuggestions {
  images : list PixabayImage;
  isLoading : bool
}.

Inductive HookAction : Type :=
| SetImages (l : list PixabayImage)
| SetIsLoading (b : bool).

Definition hook_action (a : HookAction) (s : Suggestions) : Suggestions :=
  match a with
  | SetImages l => {| images := l; isLoading := isLoading s |}
  | SetIsLoading b => {| images := images s; isLoading := b |}
  end.

(** [debouncedSearch]: what a run does at once, and, when it goes on to
    search, the query it calls [searchPixabayImages] with and what it
    does with the images once the awaited call has resolved. *)
Definition debouncedSearch (searchQuery : jsstring)
  : list HookAction * option (jsstring * (list PixabayImage -> list HookAction)) :=
  if negb (truthy (trim searchQuery)) || (length searchQuery <? 3) then
    ([SetImages []], None)
  else
    ([SetIsLoading true],
     Some (searchQuery,
           fun results => [SetImages results; SetIsLoading false])).

(** The hook while its component is mounted: the query of the last
    render; the timeout that the effect has set and neither cleared nor
    seen elapse, with the query its callback passes on; the state; the
    searches awaited, oldest first; and the queries that
    [searchPixabayImages] was called with, oldest first. *)
Record Hook : Type := mkHook {
  query : jsstring;
  timer : option jsstring;
  suggestions : Suggestions;
  awaited : list (jsstring * (list PixabayImage -> list HookAction));
  searched : list jsstring
}.

Inductive HookEvent : Type :=
| Rerender (query : jsstring)
| TimerFires
| SearchDone (i : nat).

Definition hook_actions (l : list HookAction) (s : Suggestions) : Suggestions :=
  foldl (fun s a => hook_action a s) s l.

(** The first render: the effect sets the timeout. *)
Definition mountHook (query : jsstring) : Hook :=
  {| query := query; timer := Some query;
     suggestions := {| images := []; isLoading := false |};
     awaited := []; searched := [] |}.

(** A render with another query runs the effect again, after its
    clean-up: [clearTimeout], then [setTimeout]; a render with the same
    query does not, the other two dependencies being constant. When the
    timeout elapses, its callback runs [debouncedSearch] up to its
    [await]. When the awaited search resolves, the run goes on with the
    images found. *)
Definition hook_step (h : Hook) (e : HookEvent) : Hook :=
  match e with
  | Rerender q =>
      if strict_eq (query h) q then h
      else {| query := q; timer := Some q; suggestions := suggestions h;
              awaited := awaited h; searched := searched h |}
  | TimerFires =>
      match timer h with
      | None => h
      | Some q =>
          {| query := query h; timer := None;
             suggestions := hook_actions (debouncedSearch q).1 (suggestions h);
             awaited := awaited h ++ option_list (debouncedSearch q).2;
             searched := searched h ++ (fst <$> option_list (debouncedSearch q).2) |}
      end
  | SearchDone i =>
      match awaited h !! i with
      | None => h
      | Some (q, resume) =>
          {| query := query h; timer := timer h;
             suggestions :=
               hook_actions (resume (found (searchPixabayImages q 6)))
                            (suggestions h);
             awaited := delete i (awaited h); searched := searched h |}
      end
  end.

Definition hook_run (h : Hook) (l : list HookEvent) : Hook := foldl hook_step h l.

End Service.

(** [state.prompt.trim().length >= 3]: whether [DesignControls] renders
    the suggestions panel. *)
Definition suggestionsShown (prompt : jsstring) : bool :=
  3 <=? length (trim prompt).

End Pixabay.

(* ===================================================================== *)
(** ** [src/services/nekosService.ts]: the category of a query *)
(* ===================================================================== *)

Module Nekos.
Import Js.

Definition AVAILABLE_CATEGORIES : list jsstring :=
  lit <$> ["neko"; "husbando"; "kitsune"; "waifu"]%string.

(** The entries of [CATEGORY_MAPPINGS], in insertion order. *)
Definition CATEGORY_MAPPINGS : list (jsstring * jsstring) :=
  (fun kv => (lit kv.1, lit kv.2)) <$>
  [ ("catgirl", "neko"); ("cat", "neko"); ("neko", "neko");
    ("fox", "kitsune"); ("foxgirl", "kitsune"); ("kitsune", "kitsune");
    ("waifu", "waifu"); ("girl", "waifu"); ("anime", "waifu");
    ("cute", "waifu"); ("kawaii", "waifu");
    ("husbando", "husbando"); ("boy", "husbando"); ("guy", "husbando") ]%string.

Fixpoint startsWith (s prefix : jsstring) : bool :=
  match prefix, s with
  | [], _ => true
  | _ :: _, [] => false
  | p :: prefix', c :: s' => (c =? p)%N && startsWith s' prefix'
  end.

(** [s.includes(sub)] *)
Fixpoint includes (s sub : jsstring) : bool :=
  startsWith s sub ||
  match s with
  | [] => false
  | _ :: rest => includes rest sub
  end.

(** The loop over the entries: the first keyword that the query holds, or
    that holds the query, decides. *)
Fixpoint matchCategory (entries : list (jsstring * jsstring))
    (queryLower : jsstring) : option jsstring :=
  match entries with
  | [] => None
  | (keyword, category) :: rest =>
      if includes queryLower keyword || includes keyword queryLower
      then Some category
      else matchCategory rest queryLower
  end.

(** The call [searchAnimeImagesByQuery] ends with. *)
Inductive Fetch : Type :=
| getRandomAnimeImages (limit : N) (category : jsstring)
| getMixedAnimeImages (limit : N).

Section Search.

Variable toLowerCase : jsstring -> jsstring.

Definition searchAnimeImagesByQuery (query : jsstring) (limit : N) : Fetch :=
  let queryLower := toLowerCase query in
  match matchCategory CATEGORY_MAPPINGS queryLower with
  | Some matchedCategory =>
      if truthy matchedCategory then getRandomAnimeImages limit matchedCategory
      else getMixedAnimeImages limit
  | None => getMixedAnimeImages limit
  end.

End Search.

End Nekos.

(* ===================================================================== *)
(** ** [src/components/DesignControls.tsx]: palette and upload preview *)
(* ===================================================================== *)

Module Controls.
Import Js Types.

(** The [hex] fields of [SHIRT_COLORS]. *)
Definition SHIRT_COLORS : list jsstring :=
  lit <$> [ "#000000"; "#ffffff"; "#1e293b"; "#ef4444";
            "#3b82f6"; "#22c55e"; "#a855f7"; "#f59e0b" ]%string.

(** [state.generatedImageBase64 && state.uploadedImage]: whether the
    preview with its remove button replaces the upload button. *)
Definition uploadPreviewShown (s : DesignState) : bool :=
  truthy_opt (generatedImageBase64 s) && uploadedImage s.

End Controls.

(* ===================================================================== *)
(** ** Invariants of the further proofs *)
(* ===================================================================== *)

Module Inv.
Import Js Types.

(** Lower-casing of the ASCII letters, which is what [toLowerCase] does
    on ASCII strings. *)
Definition asciiLower (s : jsstring) : jsstring :=
  (fun c => if ((65 <=? c) && (c <=? 90))%N then (c + 32)%N else c) <$> s.

(** A string of ASCII characters. *)
Definition isAscii (s : jsstring) : Prop := Forall (fun c => (c < 128)%N) s.

(** An update never marks the artwork as uploaded without setting a
    non-empty image with it, and never sets the image alone. *)
Definition keeps_upload (a : App.Action) : Prop :=
  match a with
  | App.SetDesignState updates =>
      match App.u_generatedImageBase64 updates, App.u_uploadedImage updates with
      | None, None => True
      | Some image, Some true => truthy_opt image = true
      | Some _, Some false => True
      | _, _ => False
      end
  | _ => True
  end.

(** The upload flag stands for a non-empty image. *)
Definition flagged_ok (s : App.AppState) : Prop :=
  uploadedImage (App.designState s) = true ->
  truthy_opt (generatedImageBase64 (App.designState s)) = true.

(** So it does now, and whatever the pending continuations do. *)
Definition upload_inv (p : App.Page) : Prop :=
  flagged_ok (App.state p) /\
  Forall (fun k => forall r, Forall keeps_upload (k r)) (App.inflight p).

(** The controls whose handler goes through [updateState] at once. *)
Definition edits (e : App.Event) : bool :=
  match e with
  | App.ClickTheme _ | App.EditPrompt _ | App.ClickRemoveUpload
  | App.ClickSleeve _ | App.ClickFabric _ | App.ClickColor _
  | App.ClickSize _ | App.ClickQtyMinus | App.ClickQtyPlus => true
  | _ => false
  end.

(** A status code that reports success. *)
Definition success (status : N) : bool :=
  ((200 <=? status) && (status <=? 299))%N.

(** The requests the API handler passes on: a POST, with a key in the
    environment and a non-empty prompt in the body. *)
Definition accepted (env : Api.Env) (req : Api.VercelRequest) : bool :=
  strict_eq (Api.method req) (lit "POST")
  && truthy_opt (Api.first_truthy (Api.VITE_OPENAI_API_KEY env)
                                  (Api.OPENAI_API_KEY env))
  && match Api.body req with
     | Some b => truthy_opt (Api.prompt b)
     | None => false
     end.

(** The effects of the viewer in the order they run when the component
    is mounted on its container. *)
Definition mount (p : Viewer.Props) : list Viewer.Update :=
  [Viewer.Mount true; Viewer.Rebuild p; Viewer.Recolor p; Viewer.Retexture p].

(** Addresses are handed out in order: the print mesh's material and the
    materials that pending loads will write to were created before. *)
Definition fresh_inv (st : Viewer.Refs) : Prop :=
  (forall mesh, Viewer.printMeshRef st = Some mesh ->
     Viewer.material mesh < Viewer.nextAddr st) /\
  Forall (fun load => load.2 < Viewer.nextAddr st) (Viewer.loading st).



(** The group holds the five meshes of a shirt. *)
Definition built (st : Viewer.Refs) : Prop :=
  exists children,
    Viewer.shirtGroupRef st = Some children /\ length children = 5.

(** Every object made so far, mesh or material, has an address below the
    next one. *)
Definition alloc_inv (st : Viewer.Refs) : Prop :=
  (forall children, Viewer.shirtGroupRef st = Some children ->
     Forall (fun m => Viewer.addr m < Viewer.nextAddr st) children) /\
  (forall k, is_Some (Viewer.materials st !! k) -> k < Viewer.nextAddr st).

(** Whether the update [u], made in the state [st], is the callback of a
    load that was started for the material at [k]. *)
Definition decodes_for (k : nat) (st : Viewer.Refs) (u : Viewer.Update) : bool :=
  match u with
  | Viewer.Loaded i _ =>
      match Viewer.loading st !! i with
      | Some (_, mat) => mat =? k
      | None => false
      end
  | _ => false
  end.

(** Updates, made one after the other from the state [st], of which none
    sets the scene up, rebuilds the mesh or is the callback of a load for
    the material at [k]. *)
Fixpoint undecoded (three : Viewer.Shape -> list Viewer.Vertex) (k : nat)
    (st : Viewer.Refs) (us : list Viewer.Update) : bool :=
  match us with
  | [] => true
  | u :: us =>
      Spec.keeps_mesh u && negb (decodes_for k st u)
      && undecoded three k (Viewer.update three st u) us
  end.

(** A material that shows nothing. *)
Definition shows_nothing (m : Viewer.Material) : Prop :=
  Viewer.opacity m = 0%float /\ Viewer.map m = None /\
  Viewer.transparent m = true.

End Inv.

(* ===================================================================== *)
(** ** [src/components/ThreeViewer.tsx]: the effects and their dependencies *)
(* ===================================================================== *)

Module Lifecycle.
Import Js Types Viewer.

(** The values of a dependency array; the props are strings, and
    [designTexture] may be [null]. *)
Definition Deps : Type := list (option jsstring).

(** The dependency arrays of the four effects, in the order in which the
    component declares them. *)
Definition sceneDeps (p : Props) : Deps := [].

Definition rebuildDeps (p : Props) : Deps :=
  [Some (SleeveLength_value (sleeveLength p));
   Some (FabricType_value (fabricType p))].

Definition colorDeps (p : Props) : Deps := [Some (shirtColor p)].

Definition textureDeps (p : Props) : Deps := [designTexture p].

(** Whether some dependency differs from its value at the previous
    render. *)
Definition changed (prev next : Deps) : bool := negb (bool_decide (prev = next)).

(** The effects that run after a render with the props [next], in order:
    all four after the first render, on the container that this render
    has attached; afterwards those of which a dependency has changed. *)
Definition effects (prev : option Props) (next : Props) : list Update :=
  match prev with
  | None => [Mount true; Rebuild next; Recolor next; Retexture next]
  | Some prev =>
      (if changed (sceneDeps prev) (sceneDeps next) then [Mount true] else [])
      ++ (if changed (rebuildDeps prev) (rebuildDeps next)
          then [Rebuild next] else [])
      ++ (if changed (colorDeps prev) (colorDeps next)
          then [Recolor next] else [])
      ++ (if changed (textureDeps prev) (textureDeps next)
          then [Retexture next] else [])
  end.

(** The mounted component: the props of its last render, and its refs. *)
Record Component : Type := mkComponent {
  props : Props;
  refs : Refs
}.

(** What happens to it: the parent renders it with new props, or a
    pending texture load decodes its image or fails. *)
Inductive Event : Type :=
| Render (next : Props)
| Decoded (i : nat) (tex : Texture)
| DecodeFailed (i : nat).

Section Life.

Variable three : Shape -> list Vertex.

Definition mounted (p : Props) : Component :=
  {| props := p; refs := updates three unmounted (effects None p) |}.

Definition step (c : Component) (e : Event) : Component :=
  match e with
  | Render next =>
      {| props := next;
         refs := updates three (refs c) (effects (Some (props c)) next) |}
  | Decoded i tex => {| props := props c; refs := loaded i tex (refs c) |}
  | DecodeFailed i => {| props := props c; refs := loadFailed i (refs c) |}
  end.

Definition run (c : Component) (l : list Event) : Component := foldl step c l.

End Life.

(** The props after a change of the shirt colour alone. *)
Definition recoloured (c : jsstring) (p : Props) : Props :=
  {| shirtColor := c; designTexture := designTexture p;
     sleeveLength := sleeveLength p; fabricType := fabricType p |}.

End Lifecycle.

(* ===================================================================== *)
(** ** Further sample inputs *)
(* ===================================================================== *)

Module Samples2.
Import Js Types Samples Inv.

(** The page once a prompt is typed. *)
Definition sample_prompt_page : App.Page :=
  App.steps App.start [App.User (App.EditPrompt sample_prompt)].

(** The same page after a generation failed without a message. *)
Definition sample_failed_page : App.Page :=
  App.steps sample_prompt_page
    [App.User App.ClickGenerate; App.Settle 0 (Rejected None)].

(** The steps of an upload: a file is chosen and read. *)
Definition sample_upload : list App.Step :=
  [App.User (App.SelectFile true); App.Settle 0 (Resolved sample_url)].

(** An image API that answers every request with one picture. *)
Definition sample_openai (_ : OpenAI.ImageRequest) : OpenAI.Fetched :=
  OpenAI.Answers
    {| OpenAI.status := 200; OpenAI.statusText := lit "OK";
       OpenAI.parsed := OpenAI.Json None (Some [Some (lit "AAAA")]) |}.

(** An image API that is out of quota, and still sends a picture. *)
Definition sample_quota (_ : OpenAI.ImageRequest) : OpenAI.Fetched :=
  OpenAI.Answers
    {| OpenAI.status := 429; OpenAI.statusText := lit "Too Many Requests";
       OpenAI.parsed := OpenAI.Json None (Some [Some (lit "AAAA")]) |}.

Definition sample_env : Api.Env :=
  {| Api.VITE_OPENAI_API_KEY := None; Api.OPENAI_API_KEY := Some sample_key |}.

(** A POST with a prompt and nothing else. *)
Definition sample_post : Api.VercelRequest :=
  {| Api.method := lit "POST";
     Api.body := Some {| Api.prompt := Some sample_prompt;
                         Api.size := None; Api.quality := None |} |}.

(** A search service that finds one image for every query. *)
Definition sample_hit : Pixabay.PixabayImage :=
  {| Pixabay.id := 1; Pixabay.pageURL := lit "p"; Pixabay.previewURL := lit "s";
     Pixabay.webformatURL := lit "w"; Pixabay.largeImageURL := lit "l";
     Pixabay.user := lit "u"; Pixabay.tags := lit "t" |}.

Definition sample_pixabay (_ : jsstring) : Pixabay.Fetched :=
  Pixabay.Answers true (Some [sample_hit]).

(** The default shirt with an artwork bound. *)
Definition sample_props_art : Viewer.Props :=
  {| Viewer.shirtColor := DEFAULT_SHIRT_COLOR;
     Viewer.designTexture := Some sample_url;
     Viewer.sleeveLength := SHORT;
     Viewer.fabricType := COTTON |}.

(** The component is mounted and builds the shirt with the artwork, whose
    load is still pending. *)
Definition sample_life : list Viewer.Update :=
  [Viewer.Mount true; Viewer.Rebuild sample_props_art].

(** A second artwork. *)
Definition sample_url2 : jsstring := lit "data:image/png;base64,BBBB".

Definition sample_props_art2 : Viewer.Props :=
  {| Viewer.shirtColor := DEFAULT_SHIRT_COLOR;
     Viewer.designTexture := Some sample_url2;
     Viewer.sleeveLength := SHORT;
     Viewer.fabricType := COTTON |}.

Definition sample_texture2 : Viewer.Texture :=
  {| Viewer.image := sample_url2;
     Viewer.colorSpace := Viewer.NoColorSpace;
     Viewer.flipY := false |}.

End Samples2.

(* ===================================================================== *)
(** * Properties *)
(* ===================================================================== *)

Import Js Types Samples.

(** ** White space and [trim] *)

Section Trim.
Implicit Types s : jsstring.

Lemma trimStart_blank s : blank s = true -> trimStart s = [].
Proof.
  induction s as [|c s IH]; simpl; [done|].
  intros [Hc Hs]%andb_true_iff. rewrite Hc. auto.
Qed.

(** What [trimStart] leaves starts with a character that is kept. *)
Lemma trimStart_head s :
  trimStart s = [] \/
  exists c rest, trimStart s = c :: rest /\ isWhiteSpace c = false.
Proof.
  induction s as [|c s IH]; simpl; [by left|].
  destruct (isWhiteSpace c) eqn:Hc; [exact IH|].
  right. by exists c, s.
Qed.

Lemma trimStart_nil_blank s : trimStart s = [] -> blank s = true.
Proof.
  induction s as [|c s IH]; simpl; [done|].
  destruct (isWhiteSpace c); [auto | discriminate].
Qed.

Lemma blank_reverse s : blank (reverse s) = blank s.
Proof.
  unfold blank. apply eq_true_iff_eq.
  rewrite !forallb_forall. setoid_rewrite <- list_elem_of_In.
  by setoid_rewrite elem_of_reverse.
Qed.

Lemma trim_blank s : blank s = true -> trim s = [].
Proof.
  intros H. unfold trim, trimEnd. by rewrite (trimStart_blank s H).
Qed.

Lemma trim_nil_blank s : trim s = [] -> blank s = true.
Proof.
  unfold trim, trimEnd. intros H.
  apply (f_equal reverse) in H. rewrite reverse_involutive in H.
  change (reverse []) with (@nil N) in H.
  apply trimStart_nil_blank in H. rewrite blank_reverse in H.
  destruct (trimStart_head s) as [E | (c & rest & E & Hc)].
  - by apply trimStart_nil_blank.
  - rewrite E in H. simpl in H. by rewrite Hc in H.
Qed.

Example trim_sample :
  trim ([32; 9]%N ++ lit "neon  wolf" ++ [160; 10]%N) = lit "neon  wolf".
Proof. reflexivity. Qed.

Example trim_blank_sample : trim [32; 0x3000; 13; 0xFEFF]%N = [].
Proof. reflexivity. Qed.

(** [!s.trim()] holds exactly of the blank strings. *)
Lemma not_trim_blank s : negb (truthy (trim s)) = blank s.
Proof.
  destruct (blank s) eqn:Hb.
  - by rewrite (trim_blank s Hb).
  - destruct (trim s) eqn:E; [|done].
    apply trim_nil_blank in E. congruence.
Qed.

End Trim.

(** ** Prompt enhancement *)

Section EnhancePrompt.

(** The module constant and the remote model are arbitrary. *)
Variable GEMINI_API_KEY : jsstring.
Variable generateContent : Gemini.Request -> Gemini.Outcome.

Lemma or_else_trim (text : option jsstring) (currentPrompt : jsstring) :
  or_else (trim <$> text) currentPrompt =
  if no_text text then currentPrompt else default [] (trim <$> text).
Proof.
  destruct text as [t|]; simpl; [|done].
  rewrite <- (not_trim_blank t). by destruct (trim t).
Qed.

(** Without a key nothing is sent and the promise is rejected. *)
Lemma enhancePrompt_without_key currentPrompt theme :
  Gemini.enhancePrompt [] generateContent currentPrompt theme =
  {| Gemini.sent := [];
     Gemini.settled := Rejected (Some (lit "API Key is missing.")) |}.
Proof. reflexivity. Qed.

(** C8, as amended. With an API key configured, [enhancePrompt] sends
    one request; when the model answers with a text that is not blank it
    resolves with that text, trimmed (and not empty); when the call
    throws it resolves with the original prompt, unchanged. *)
Theorem enhancePrompt_with_key currentPrompt theme :
  truthy GEMINI_API_KEY = true ->
  let run := Gemini.enhancePrompt GEMINI_API_KEY generateContent
                                  currentPrompt theme in
  Gemini.sent run = [Gemini.enhanceRequest currentPrompt theme] /\
  (forall t,
     generateContent (Gemini.enhanceRequest currentPrompt theme)
       = Gemini.Responds (Some t) ->
     blank t = false ->
     Gemini.settled run = Resolved (trim t) /\ trim t <> []) /\
  (generateContent (Gemini.enhanceRequest currentPrompt theme) = Gemini.Throws ->
   Gemini.settled run = Resolved currentPrompt).
Proof.
  intros Hkey. unfold Gemini.enhancePrompt. rewrite Hkey. simpl.
  split; [done|]. split.
  - intros t Hresp Hb. rewrite Hresp, or_else_trim. simpl. rewrite Hb.
    split; [done|]. intros E. apply trim_nil_blank in E. congruence.
  - by intros ->.
Qed.

(** C10. When the request was sent and the model answered, but with a
    text that is undefined, empty or white space only, [enhancePrompt]
    resolves with the original prompt, unchanged. *)
Theorem enhancePrompt_empty_response currentPrompt theme text :
  truthy GEMINI_API_KEY = true ->
  generateContent (Gemini.enhanceRequest currentPrompt theme)
    = Gemini.Responds text ->
  no_text text = true ->
  Gemini.enhancePrompt GEMINI_API_KEY generateContent currentPrompt theme =
  {| Gemini.sent := [Gemini.enhanceRequest currentPrompt theme];
     Gemini.settled := Resolved currentPrompt |}.
Proof.
  intros Hkey Hresp Hno. unfold Gemini.enhancePrompt.
  rewrite Hkey, Hresp. simpl. by rewrite or_else_trim, Hno.
Qed.

End EnhancePrompt.

(** C8, the claim as stated fails: with the key missing and the service
    failing, the operation rejects instead of returning the prompt. *)
Lemma enhancePrompt_missing_key_rejects :
  Gemini.settled
    (Gemini.enhancePrompt [] (fun _ => Gemini.Throws) sample_prompt CYBERPUNK)
  = Rejected (Some (lit "API Key is missing.")) /\
  Gemini.settled
    (Gemini.enhancePrompt [] (fun _ => Gemini.Throws) sample_prompt CYBERPUNK)
  <> Resolved sample_prompt.
Proof. split; [reflexivity | discriminate]. Qed.

(** The amended C8 on a sample prompt, with a model that answers and
    with one that throws. *)
Lemma enhancePrompt_with_key_witness :
  Gemini.sent
    (Gemini.enhancePrompt sample_key sample_model sample_prompt CYBERPUNK)
  = [Gemini.enhanceRequest sample_prompt CYBERPUNK] /\
  Gemini.settled
    (Gemini.enhancePrompt sample_key sample_model sample_prompt CYBERPUNK)
  = Resolved (lit "a majestic wolf") /\
  Gemini.settled
    (Gemini.enhancePrompt sample_key (fun _ => Gemini.Throws) sample_prompt
                          CYBERPUNK)
  = Resolved sample_prompt.
Proof.
  pose proof (enhancePrompt_with_key sample_key sample_model sample_prompt
                CYBERPUNK eq_refl) as (Hsent & Hok & _).
  pose proof (enhancePrompt_with_key sample_key (fun _ => Gemini.Throws)
                sample_prompt CYBERPUNK eq_refl) as (_ & _ & Hthrow).
  split; [exact Hsent|]. split.
  - exact (proj1 (Hok (lit "  a majestic wolf  ") eq_refl eq_refl)).
  - exact (Hthrow eq_refl).
Defined.

(** C10 on a response of three spaces. *)
Lemma enhancePrompt_empty_response_witness :
  Gemini.enhancePrompt sample_key
    (fun _ => Gemini.Responds (Some (lit "   "))) sample_prompt ANIME =
  {| Gemini.sent := [Gemini.enhanceRequest sample_prompt ANIME];
     Gemini.settled := Resolved sample_prompt |}.
Proof.
  exact (enhancePrompt_empty_response sample_key
           (fun _ => Gemini.Responds (Some (lit "   "))) sample_prompt ANIME
           (Some (lit "   ")) eq_refl eq_refl eq_refl).
Defined.

(** ** The quantity selector *)

Section Quantity.
Import App Spec.

Lemma apply_action_floor a s :
  keeps_floor a -> (1 <= quantity (designState s))%Z ->
  (1 <= quantity (designState (apply_action a s)))%Z.
Proof.
  destruct a as [u| | | |]; simpl; try done.
  destruct (u_quantity u); simpl; auto.
Qed.

Lemma run_floor actions s :
  Forall keeps_floor actions -> (1 <= quantity (designState s))%Z ->
  (1 <= quantity (designState (run actions s)))%Z.
Proof.
  unfold run. intros H. revert s.
  induction H as [|a l Ha _ IH]; intros s Hs; simpl; [done|].
  apply IH. by apply apply_action_floor.
Qed.

(** [updateState] keeps the floor when the quantity it is given does. *)
Lemma updateState_floor app u :
  keeps_floor (SetDesignState u) -> Forall keeps_floor (updateState app u).
Proof.
  intros H. unfold updateState. constructor; [done|].
  destruct (truthy_opt (error app)); repeat constructor.
Qed.

Local Ltac floor :=
  repeat first
    [ done
    | apply Forall_app_2
    | apply updateState_floor; simpl
    | apply Forall_cons_2; simpl
    | apply Forall_nil_2
    | match goal with
      | |- context [if ?b then _ else _] => destruct b; simpl
      end ].

Lemma handleUploadImage_floor app imageData :
  Forall keeps_floor (handleUploadImage app imageData).
Proof. unfold handleUploadImage. floor. Qed.

Lemma fire_sync_floor app e :
  (1 <= quantity (designState app))%Z ->
  Forall keeps_floor (sync (fire app e)).
Proof.
  intros Hq. destruct e; simpl;
    unfold handleEnhancePrompt, handleGenerateArt, handleAutoDescription;
    floor; try apply handleUploadImage_floor; lia.
Qed.

Lemma fire_awaits_floor app e c k r :
  awaits (fire app e) = Some (c, k) -> Forall keeps_floor (k r).
Proof.
  destruct e; simpl;
    unfold handleEnhancePrompt, handleGenerateArt, handleAutoDescription;
    repeat match goal with
           | |- context [if ?b then _ else _] => destruct b; simpl
           end;
    (intros [= <- <-] || discriminate);
    destruct r; simpl; floor; apply handleUploadImage_floor.
Qed.

Lemma start_floor : floor_inv start.
Proof. split; [by vm_compute | constructor]. Qed.

Lemma step_floor p s : floor_inv p -> floor_inv (step p s).
Proof.
  intros [Hq Hk]. destruct s as [e | i r]; simpl.
  - unfold dispatch. split.
    + apply run_floor; [by apply fire_sync_floor | done].
    + simpl. destruct (awaits (fire (state p) e)) as [[c k]|] eqn:E; [|done].
      apply Forall_app_2; [done|]. constructor; [|constructor].
      intros r. by eapply fire_awaits_floor.
  - unfold settle. destruct (inflight p !! i) as [k|] eqn:E; [|by split].
    split.
    + apply run_floor; [|done].
      by apply (Forall_lookup_1 _ _ _ _ Hk E).
    + simpl. by apply Forall_delete.
Qed.

Lemma steps_floor l : forall p, floor_inv p -> floor_inv (steps p l).
Proof.
  unfold steps. induction l as [|s l IH]; intros p Hp; simpl; [done|].
  apply IH. by apply step_floor.
Qed.

Lemma qty_run_updateState app u s :
  quantity (designState (run (updateState app u) s)) =
  default (quantity (designState s)) (u_quantity u).
Proof.
  unfold updateState, run.
  destruct (truthy_opt (error app)); reflexivity.
Qed.

(** C4. The quantity starts at 1; the plus button adds exactly 1; the
    minus button yields [max 1 (quantity - 1)], so it leaves 1 at 1; after
    any run of user events and settled calls the quantity is at least 1;
    three increments and a decrement from the start give 3. *)
Theorem quantity_floor :
  qty start = 1%Z /\
  (forall p, qty (dispatch ClickQtyPlus p) = (qty p + 1)%Z) /\
  (forall p, qty (dispatch ClickQtyMinus p) = Z.max 1 (qty p - 1)) /\
  (forall l, (1 <= qty (steps start l))%Z) /\
  qty (steps start [User ClickQtyMinus]) = 1%Z /\
  qty (steps start [User ClickQtyPlus; User ClickQtyPlus; User ClickQtyPlus;
                    User ClickQtyMinus]) = 3%Z.
Proof.
  split; [reflexivity|].
  split; [intros p; unfold qty, dispatch; simpl; apply qty_run_updateState|].
  split; [intros p; unfold qty, dispatch; simpl; apply qty_run_updateState|].
  split; [intros l; apply (steps_floor l start start_floor)|].
  split; reflexivity.
Qed.

End Quantity.

(** ** The Generate Design button *)

Section Generate.
Import App.

Lemma generateDisabled_spec app :
  generateDisabled app =
  isGenerating (designState app) || blank (prompt (designState app)).
Proof. unfold generateDisabled. by rewrite not_trim_blank. Qed.

(** C7. The Generate Design button is disabled exactly when a generation
    is in flight or the prompt is blank (empty or white space only); a
    click on the disabled button runs no handler, so it sets no state and
    issues no call; and the handler itself, invoked with an empty prompt,
    returns at once: no state is set and no call is issued. *)
Theorem generate_rejects_blank_prompt (p : Page) :
  generateDisabled (state p) =
    isGenerating (designState (state p))
    || blank (prompt (designState (state p))) /\
  (generateDisabled (state p) = true ->
   fire (state p) ClickGenerate = idle /\ dispatch ClickGenerate p = p) /\
  (prompt (designState (state p)) = [] ->
   handleGenerateArt (state p) = idle /\
   sync (handleGenerateArt (state p)) = [] /\
   call_of (handleGenerateArt (state p)) = []).
Proof.
  split; [apply generateDisabled_spec|]. split.
  - intros Hd. unfold dispatch. simpl. rewrite Hd. split; [done|].
    simpl. by destruct p.
  - intros Hp. unfold handleGenerateArt, call_of. rewrite Hp. simpl. done.
Qed.

End Generate.

(** C7 on a prompt of two spaces and a tab, and on the empty prompt of
    the initial state. *)
Lemma generate_rejects_blank_prompt_witness :
  App.generateDisabled (App.state sample_blank_page) = true /\
  App.dispatch App.ClickGenerate sample_blank_page = sample_blank_page /\
  App.call_of (App.handleGenerateArt (App.state App.start)) = [].
Proof.
  pose proof (generate_rejects_blank_prompt sample_blank_page) as (Hd & Hf & _).
  pose proof (generate_rejects_blank_prompt App.start) as (_ & _ & Hh).
  split; [rewrite Hd; reflexivity|].
  split; [apply Hf; rewrite Hd; reflexivity|].
  apply Hh. reflexivity.
Defined.

(** ** The decal's UV coordinates *)

Section UV.
Import Viewer Spec.

Lemma remapStep_middle (l1 l2 : list Vertex) (vtx : Vertex) :
  remapStep (l1 ++ vtx :: l2) (length l1) = l1 ++ remapped vtx :: l2.
Proof.
  unfold remapStep, setXY, getX, getY.
  rewrite list_lookup_middle by done.
  rewrite alter_app_r_alt by done. by rewrite Nat.sub_diag.
Qed.

(** The loop, having treated the first vertices, treats the rest. *)
Lemma remap_loop (rest : list Vertex) :
  forall treated : list Vertex,
    foldl remapStep (treated ++ rest) (seq (length treated) (length rest)) =
    treated ++ (remapped <$> rest).
Proof.
  induction rest as [|vtx rest IH]; intros treated; simpl; [done|].
  rewrite remapStep_middle.
  replace (S (length treated)) with (length (treated ++ [remapped vtx]))
    by (rewrite length_app; simpl; lia).
  rewrite (cons_middle (remapped vtx) treated rest), app_assoc.
  rewrite IH. by rewrite <- app_assoc.
Qed.

Lemma remapUV_fmap (g : list Vertex) : remapUV g = remapped <$> g.
Proof. exact (remap_loop g []). Qed.

(** C2, as amended. The UV loop leaves every vertex where it is and
    stores for it the UV pair [(x / 0.82 + 0.5, y / 0.7 + 0.5)] computed
    in binary64 from its own local position and rounded to binary32, as
    the attribute's array is a [Float32Array]; these positions are those
    of the geometry, which the scale [(1, 1, 0.5)] set on the mesh does
    not touch. Hence the UVs are a function of the positions alone, and
    running the loop again changes nothing. *)
Theorem decal_uv_from_position (three : Shape -> list Vertex) (g : list Vertex) :
  remapUV g =
    (fun vtx =>
       {| pos := pos vtx;
          uv := (fround (vx (pos vtx) / 0.82 + 0.5)%float,
                 fround (vy (pos vtx) / 0.7 + 0.5)%float) |}) <$> g /\
  remapUV (remapUV g) = remapUV g /\
  (forall g', pos <$> g' = pos <$> g -> uv <$> remapUV g' = uv <$> remapUV g) /\
  (forall a m,
     attributes (geometry (decalMesh three a m)) =
       remapUV (three (CylinderGeometry 0.56 0.56 0.7 32 (Some 1) (Some true)
                                        (Some (-0.8)%float) (Some 1.6%float))) /\
     scale (decalMesh three a m) = vec3 1 1 0.5).
Proof.
  split; [apply remapUV_fmap|]. split; [|split].
  - rewrite !remapUV_fmap, <- list_fmap_compose. reflexivity.
  - intros g' Hpos. rewrite !remapUV_fmap, <- !list_fmap_compose.
    change (uv ∘ remapped) with (storedUV ∘ pos).
    by rewrite !list_fmap_compose, Hpos.
  - intros a m. split; reflexivity.
Qed.

(** C2, the claim as stated fails: at the first vertex of the decal the
    pair that the formula gives in binary64 is not the pair that the
    loop stores; both stored numbers are larger. *)
Lemma decal_uv_is_rounded :
  decalUV (pos decal_vertex0)
    = (0.010098266892316854%float, 0.9999999914850508%float) /\
  uv <$> remapUV [decal_vertex0] = [(0.01009826734662056%float, 1%float)] /\
  (0.010098266892316854 <? 0.01009826734662056)%float = true /\
  (0.9999999914850508 <? 1)%float = true.
Proof. vm_compute. repeat split; reflexivity. Qed.

Example decal_uv_sample :
  uv <$> remapUV (sample_three (TorusGeometry 0 0 0 0)) =
  [ (1, 1)%float; (0, 0)%float ].
Proof. vm_compute. reflexivity. Qed.

End UV.

(** ** The mesh builder *)

Section Filter.
Context {A : Type} (f : A -> bool).

Lemma filter_none (l : list A) :
  Forall (fun x => f x = false) l -> List.filter f l = [].
Proof. induction 1 as [|x l Hx Hl IH]; simpl; [done|]. by rewrite Hx. Qed.

Lemma filter_all (l : list A) :
  Forall (fun x => f x = true) l -> List.filter f l = l.
Proof. induction 1 as [|x l Hx Hl IH]; simpl; [done|]. by rewrite Hx, IH. Qed.

End Filter.

Lemma is_part_printMesh (m : Viewer.Mesh) :
  Viewer.is_part [Viewer.printMesh] m = true <->
  Viewer.part m = Viewer.printMesh.
Proof.
  unfold Viewer.is_part. rewrite bool_decide_eq_true.
  apply list_elem_of_singleton.
Qed.

Lemma not_is_part_printMesh (m : Viewer.Mesh) :
  Viewer.is_part [Viewer.printMesh] m = false <->
  Viewer.part m <> Viewer.printMesh.
Proof.
  rewrite <- is_part_printMesh. by destruct (Viewer.is_part _ m).
Qed.

Section Builder.
Import Viewer Spec.

Variable three : Shape -> list Vertex.

Lemma clearGroup_spec children log :
  clearGroup children log = ([], log ++ (geometry <$> children)).
Proof.
  revert log. induction children as [|child rest IH]; intros log; simpl.
  - by rewrite app_nil_r.
  - by rewrite IH, <- app_assoc.
Qed.

Lemma sleeveParts_sleeveless material a :
  sleeveParts three SLEEVELESS material a =
  (fun '(i, which, px) =>
     {| addr := i; part := which;
        geometry := newGeometry three
          (SphereGeometry 0.23 16 16 0 (Math_PI * 2) 0 (Math_PI / 2));
        material := material;
        position := vec3 px 0.6 0; rotation := zero3;
        scale := vec3 1 0.5 0.5;
        castShadow := false; receiveShadow := false |})
  <$> [(a, leftCap, 0.45%float); (a + 1, rightCap, (-0.45)%float)].
Proof. reflexivity. Qed.

Lemma sleeveParts_sleeved sleeveLength len top bot material a :
  sleeveTable sleeveLength = Some (len, top, bot) ->
  sleeveParts three sleeveLength material a =
  (fun '(i, which, px, rz) =>
     {| addr := i; part := which;
        geometry := translate 0 (- len / 2) 0
          (newGeometry three
             (CylinderGeometry top bot len 32 None None None None));
        material := material;
        position := vec3 px 0.65 0; rotation := vec3 0 0 rz;
        scale := one3; castShadow := true; receiveShadow := true |})
  <$> [(a, leftArm, 0.5%float, (Math_PI / 3.5)%float);
       (a + 1, rightArm, (-0.5)%float, (- Math_PI / 3.5)%float)].
Proof. destruct sleeveLength; intros [= <- <- <-]; reflexivity. Qed.

(** The texture binder touches materials and pending loads only. *)
Lemma updateTexture_frame texUrl mesh st :
  shirtGroupRef (updateTexture texUrl mesh st) = shirtGroupRef st /\
  printMeshRef (updateTexture texUrl mesh st) = printMeshRef st /\
  disposed (updateTexture texUrl mesh st) = disposed st /\
  nextAddr (updateTexture texUrl mesh st) = nextAddr st.
Proof.
  unfold updateTexture.
  destruct mesh as [mesh|]; [|done].
  destruct texUrl as [url|]; [destruct (truthy url)|]; done.
Qed.

Lemma updateTexture_materials texUrl mesh st :
  materials (updateTexture texUrl (Some mesh) st) =
  if truthy_opt texUrl then materials st
  else alter clearMap (material mesh) (materials st).
Proof.
  unfold updateTexture.
  destruct texUrl as [url|]; [destruct (truthy url) eqn:E|]; simpl;
    rewrite ?E; done.
Qed.

Section Rebuilt.

Variables (p : Props) (st : Refs) (children : list Mesh).
Hypothesis mounted : shirtGroupRef st = Some children.

Let a := nextAddr st.
Let rm := fabricMaterial (fabricType p).

Lemma rebuild_group :
  shirtGroupRef (rebuild three p st) =
  Some ([torsoMesh three (a + 1) a; collarMesh three (a + 2) a]
        ++ sleeveParts three (sleeveLength p) a (a + 3)
        ++ [decalMesh three (a + 6) (a + 5)]).
Proof using mounted.
  unfold rebuild. rewrite mounted.
  rewrite (proj1 (updateTexture_frame _ _ _)). simpl.
  by rewrite clearGroup_spec.
Qed.

Lemma rebuild_printMeshRef :
  printMeshRef (rebuild three p st) = Some (decalMesh three (a + 6) (a + 5)).
Proof using mounted.
  unfold rebuild. rewrite mounted.
  by rewrite (proj1 (proj2 (updateTexture_frame _ _ _))).
Qed.

Lemma rebuild_disposed :
  disposed (rebuild three p st) = disposed st ++ (geometry <$> children).
Proof using mounted.
  unfold rebuild. rewrite mounted.
  rewrite (proj1 (proj2 (proj2 (updateTexture_frame _ _ _)))). simpl.
  by rewrite clearGroup_spec.
Qed.

(** The decal's material after the rebuild: as created, or with map and
    opacity cleared once more when no texture is bound. *)
Lemma rebuild_decal_material :
  materials (rebuild three p st) !! (a + 5) =
  Some (if truthy_opt (designTexture p) then printMat rm
        else clearMap (printMat rm)).
Proof using mounted.
  unfold rebuild. rewrite mounted.
  rewrite updateTexture_materials. simpl.
  destruct (truthy_opt (designTexture p)).
  - by rewrite lookup_insert_eq.
  - by rewrite lookup_alter_eq, lookup_insert_eq.
Qed.

Lemma rebuild_shared_material :
  materials (rebuild three p st) !! a =
  Some (baseMaterial (shirtColor p) rm).
Proof using mounted.
  unfold rebuild. rewrite mounted.
  rewrite updateTexture_materials. simpl.
  destruct (truthy_opt (designTexture p)).
  - rewrite lookup_insert_ne by (subst a; lia). by rewrite lookup_insert_eq.
  - rewrite lookup_alter_ne by (subst a; lia).
    rewrite lookup_insert_ne by (subst a; lia). by rewrite lookup_insert_eq.
Qed.

End Rebuilt.

(** C1. Whatever the sleeve length, the rebuilt group holds exactly one
    sleeve configuration: two sleeve cylinders (and no cap) for short and
    long sleeves, with the dimensions of the sleeve table, and two
    shoulder caps (and no cylinder) for the sleeveless shirt; never both
    kinds, never neither. *)
Theorem sleeve_configuration (p : Props) (st : Refs) (children : list Mesh) :
  shirtGroupRef st = Some children ->
  exists group,
    shirtGroupRef (rebuild three p st) = Some group /\
    part <$> sleeveCylinders group =
      (if sleeved (sleeveLength p) then [leftArm; rightArm] else []) /\
    part <$> shoulderCaps group =
      (if sleeved (sleeveLength p) then [] else [leftCap; rightCap]) /\
    (sleeveCylinders group = [] \/ shoulderCaps group = []) /\
    (sleeveCylinders group <> [] \/ shoulderCaps group <> []) /\
    Forall (fun m =>
              exists len top bot,
                sleeveTable (sleeveLength p) = Some (len, top, bot) /\
                shape (geometry m) =
                  CylinderGeometry top bot len 32 None None None None)
           (sleeveCylinders group) /\
    Forall (fun m =>
              shape (geometry m) =
                SphereGeometry 0.23 16 16 0 (Math_PI * 2) 0 (Math_PI / 2) /\
              scale m = vec3 1 0.5 0.5)
           (shoulderCaps group).
Proof.
  intros Hgroup. eexists. split; [exact (rebuild_group p st children Hgroup)|].
  destruct (sleeveLength p) eqn:Hs.
  - rewrite sleeveParts_sleeveless. cbn.
    repeat split; auto; repeat constructor.
  - rewrite (sleeveParts_sleeved SHORT _ _ _ _ _ eq_refl). cbn.
    repeat split; auto; repeat constructor; by eexists _, _, _.
  - rewrite (sleeveParts_sleeved LONG _ _ _ _ _ eq_refl). cbn.
    repeat split; auto; repeat constructor; by eexists _, _, _.
Qed.

Lemma fabricMaterial_table (f : FabricType) : fabricMaterial f = fabricTable f.
Proof. destruct f; reflexivity. Qed.

Lemma sleeveParts_fresh sleeveLength material a :
  Forall (fun m =>
            material = Viewer.material m /\ part m <> printMesh /\
            a <= addr m < a + 2)
         (sleeveParts three sleeveLength material a).
Proof.
  destruct sleeveLength.
  - rewrite sleeveParts_sleeveless.
    repeat constructor; simpl; (done || lia).
  - rewrite (sleeveParts_sleeved SHORT _ _ _ _ _ eq_refl).
    repeat constructor; simpl; (done || lia).
  - rewrite (sleeveParts_sleeved LONG _ _ _ _ _ eq_refl).
    repeat constructor; simpl; (done || lia).
Qed.

(** C3. The roughness and metalness the builder derives from the fabric
    are those of the fixed table (0.9 and 0.0 for cotton, the default;
    0.5 and 0.1 for performance poly; 0.3 and 0.2 for silk blend), and
    the material of every part of the rebuilt group carries them. *)
Theorem fabric_material_table (p : Props) (st : Refs) (children : list Mesh) :
  shirtGroupRef st = Some children ->
  fabricMaterial COTTON = (0.9%float, 0.0%float) /\
  fabricMaterial POLYESTER = (0.5%float, 0.1%float) /\
  fabricMaterial SILK = (0.3%float, 0.2%float) /\
  exists group,
    shirtGroupRef (rebuild three p st) = Some group /\
    Forall (fun m =>
              exists mat,
                materials (rebuild three p st) !! material m = Some mat /\
                (roughness mat, metalness mat) = fabricTable (fabricType p))
           group.
Proof.
  intros Hgroup. do 3 (split; [reflexivity|]).
  eexists. split; [exact (rebuild_group p st children Hgroup)|].
  pose proof (rebuild_shared_material p st children Hgroup) as Hshared.
  pose proof (rebuild_decal_material p st children Hgroup) as Hdecal.
  assert (forall m, nextAddr st = material m ->
            exists mat,
              materials (rebuild three p st) !! material m = Some mat /\
              (roughness mat, metalness mat) = fabricTable (fabricType p))
    as Hpart.
  { intros m <-. eexists. split; [exact Hshared|].
    simpl. rewrite <- fabricMaterial_table. by destruct (fabricMaterial _). }
  apply Forall_app_2; [|apply Forall_app_2].
  - repeat constructor; by apply Hpart.
  - eapply Forall_impl; [apply sleeveParts_fresh|].
    intros m (Hm & _). by apply Hpart.
  - repeat constructor. eexists. split; [exact Hdecal|].
    rewrite <- fabricMaterial_table.
    destruct (truthy_opt (designTexture p)); simpl;
      by destruct (fabricMaterial _).
Qed.

Lemma update_keeps_mesh (st : Refs) (u : Update) :
  keeps_mesh u = true ->
  shirtGroupRef (update three st u) = shirtGroupRef st /\
  printMeshRef (update three st u) = printMeshRef st /\
  disposed (update three st u) = disposed st.
Proof.
  destruct u as [c|q|q|q|i tex|i]; simpl; try discriminate; intros _.
  - unfold colorEffect. by destruct (shirtGroupRef st) eqn:E.
  - unfold textureEffect.
    destruct (updateTexture_frame (designTexture q) (printMeshRef st) st)
      as (? & ? & ? & _). done.
  - unfold loaded. by destruct (loading st !! i) as [[url mat]|].
  - done.
Qed.

Lemma updates_keep_mesh (us : list Update) :
  forall st,
    forallb keeps_mesh us = true ->
    shirtGroupRef (updates three st us) = shirtGroupRef st /\
    printMeshRef (updates three st us) = printMeshRef st /\
    disposed (updates three st us) = disposed st.
Proof.
  unfold updates.
  induction us as [|u us IH]; intros st; simpl; [done|].
  intros [Hu Hus]%andb_true_iff.
  destruct (IH (update three st u) Hus) as (-> & -> & ->).
  by apply update_keeps_mesh.
Qed.

(** C6. After a rebuild, whatever the sleeve, the fabric and the bound
    artwork, the group holds exactly one print decal, the one
    [printMeshRef] holds; its material was created, and still is, fully
    transparent (opacity 0, no map), double-sided, without depth write
    but with depth test, and with a negative polygon offset; and no
    update other than the next set-up or rebuild removes a child of the
    group: recolouring, binding or clearing a texture and the texture
    callbacks leave the group and the decal in place. *)
Theorem decal_always_present (p : Props) (st : Refs) (children : list Mesh) :
  shirtGroupRef st = Some children ->
  exists group decal mat,
    shirtGroupRef (rebuild three p st) = Some group /\
    printDecals group = [decal] /\
    printMeshRef (rebuild three p st) = Some decal /\
    materials (rebuild three p st) !! material decal = Some mat /\
    (mat = printMat (fabricMaterial (fabricType p)) \/
     mat = clearMap (printMat (fabricMaterial (fabricType p)))) /\
    (transparent mat = true /\ opacity mat = 0%float /\ map mat = None /\
     side mat = DoubleSide /\ depthWrite mat = false /\
     depthTest mat = true /\ polygonOffset mat = true /\
     (polygonOffsetFactor mat <? 0)%float = true) /\
    (forall us,
       forallb keeps_mesh us = true ->
       shirtGroupRef (updates three (rebuild three p st) us) = Some group /\
       printMeshRef (updates three (rebuild three p st) us) = Some decal).
Proof.
  intros Hgroup.
  pose proof (rebuild_group p st children Hgroup) as Hg.
  pose proof (rebuild_printMeshRef p st children Hgroup) as Hr.
  pose proof (rebuild_decal_material p st children Hgroup) as Hm.
  eexists _, _, _. split; [exact Hg|].
  split.
  { unfold printDecals. rewrite !List.filter_app.
    replace (List.filter (is_part [printMesh]) (sleeveParts three _ _ _))
      with (@nil Mesh); [reflexivity|].
    symmetry. apply filter_none.
    eapply Forall_impl; [apply sleeveParts_fresh|].
    intros m (_ & Hpart & _). by apply not_is_part_printMesh. }
  split; [exact Hr|]. split; [exact Hm|].
  split; [destruct (truthy_opt (designTexture p)); auto|].
  split; [by destruct (truthy_opt (designTexture p))|].
  intros us Hus.
  destruct (updates_keep_mesh us (rebuild three p st) Hus) as (-> & -> & _).
  done.
Qed.

End Builder.

(** ** The texture binder *)

Section Binder.
Import Viewer Spec.

(** C5. Let the decal's material object exist. Given no image ([null];
    the test is [if (texUrl)], so whatever is falsy counts as no image),
    the binder clears the material's map, sets its opacity to 0 and
    marks it for update, and starts no load. Given an image, which is a
    non-empty URL string, it only starts a load and leaves the material
    as it is; when that load has decoded the image, the callback sets
    the texture as the map with the sRGB colour space, sets the opacity
    to 1 and marks the material for update; when the load fails, the
    material stays as it was. *)
Theorem texture_binder (st : Refs) (mesh : Mesh) (m : Material) :
  materials st !! material mesh = Some m ->
  (forall texUrl,
     truthy_opt texUrl = false ->
     materials (updateTexture texUrl (Some mesh) st) !! material mesh
       = Some (clearMap m) /\
     map (clearMap m) = None /\ opacity (clearMap m) = 0%float /\
     needsUpdate (clearMap m) = true /\
     loading (updateTexture texUrl (Some mesh) st) = loading st) /\
  (forall url,
     truthy url = true ->
     materials (updateTexture (Some url) (Some mesh) st) = materials st /\
     loading (updateTexture (Some url) (Some mesh) st)
       = loading st ++ [(url, material mesh)] /\
     materials (loadFailed (length (loading st))
                  (updateTexture (Some url) (Some mesh) st)) = materials st /\
     forall tex,
       materials (loaded (length (loading st)) tex
                    (updateTexture (Some url) (Some mesh) st))
         !! material mesh = Some (bindMap tex m) /\
       map (bindMap tex m) =
         Some {| image := image tex; colorSpace := SRGBColorSpace;
                 flipY := true |} /\
       opacity (bindMap tex m) = 1%float /\
       needsUpdate (bindMap tex m) = true).
Proof.
  intros Hm. split.
  - intros texUrl Hurl. rewrite updateTexture_materials, Hurl.
    rewrite lookup_alter_eq, Hm. repeat split; try done.
    unfold updateTexture.
    destruct texUrl as [url|]; [|done].
    simpl in Hurl. by rewrite Hurl.
  - intros url Hurl. unfold updateTexture. rewrite Hurl. simpl.
    do 3 (split; [done|]).
    intros tex. unfold loaded. simpl.
    rewrite list_lookup_middle by done. simpl.
    by rewrite lookup_alter_eq, Hm.
Qed.

End Binder.

(** C5 on the default shirt: clearing a bound artwork, and binding
    one. *)
Lemma texture_binder_witness :
  Viewer.opacity <$>
    (Viewer.materials
       (Viewer.updateTexture None (Some sample_decal) sample_textured)
     !! Viewer.material sample_decal)
  = Some 0%float /\
  Viewer.opacity <$>
    (Viewer.materials
       (Viewer.loaded 0 sample_texture
          (Viewer.updateTexture (Some sample_url) (Some sample_decal)
                                sample_built))
     !! Viewer.material sample_decal)
  = Some 1%float.
Proof.
  destruct (texture_binder sample_textured sample_decal
              (Viewer.bindMap sample_texture
                 (Viewer.clearMap
                    (Viewer.printMat (Viewer.fabricMaterial COTTON))))
              eq_refl) as [Hclear _].
  destruct (texture_binder sample_built sample_decal
              (Viewer.clearMap
                 (Viewer.printMat (Viewer.fabricMaterial COTTON)))
              eq_refl) as [_ Hbind].
  destruct (Hclear None eq_refl) as (-> & _).
  destruct (Hbind sample_url eq_refl) as (_ & _ & _ & Hload).
  destruct (Hload sample_texture) as (Hl & _).
  split; [reflexivity|].
  change (length (Viewer.loading sample_built)) with 0 in Hl.
  rewrite Hl. reflexivity.
Defined.

(** ** The colour effect *)

Section Recolor.
Import Viewer Spec.

Variable three : Shape -> list Vertex.

Lemma setColor_idemp c m : setColor c (setColor c m) = setColor c m.
Proof. reflexivity. Qed.

Lemma colorChild_lookup ref c ms child k :
  colorChild ref c ms child !! k =
  if recolours ref k child then setColor c <$> ms !! k else ms !! k.
Proof.
  unfold colorChild, recolours.
  destruct (notPrintMesh ref child); simpl; [|done].
  rewrite lookup_alter.
  destruct (Nat.eqb_spec (material child) k) as [->|Hne]; by case_decide.
Qed.

(** The material at [k] after the loop over the children: recoloured
    when some child reaches it, untouched otherwise. *)
Lemma colorEffect_lookup ref c k (l : list Mesh) :
  forall ms,
    foldl (colorChild ref c) ms l !! k =
    if existsb (recolours ref k) l then setColor c <$> ms !! k else ms !! k.
Proof.
  induction l as [|child l IH]; intros ms; simpl; [done|].
  rewrite IH, colorChild_lookup.
  destruct (recolours ref k child), (existsb (recolours ref k) l); simpl;
    try done.
  by destruct (ms !! k).
Qed.

(** A state change that keeps the group and the print mesh, and loses no
    material object, keeps the shape of the group. *)
Lemma group_inv_frame st st' :
  shirtGroupRef st' = shirtGroupRef st ->
  printMeshRef st' = printMeshRef st ->
  (forall k, is_Some (materials st !! k) -> is_Some (materials st' !! k)) ->
  group_inv st -> group_inv st'.
Proof.
  intros Hg Hr Hm Hinv children' Hc. rewrite Hg in Hc.
  destruct (Hinv children' Hc) as [->|(parts & decal & -> & ? & ? & ? & Hp)];
    [by left|right].
  exists parts, decal. rewrite Hr. repeat split; auto.
  eapply Forall_impl; [exact Hp|].
  intros m (Hpart & Haddr & Hmat & Hsome). repeat split; auto.
Qed.

Lemma is_Some_alter (f : Material -> Material) (ms : gmap nat Material) i k :
  is_Some (ms !! k) -> is_Some (alter f i ms !! k).
Proof.
  rewrite lookup_alter. case_decide; [subst|done].
  by rewrite fmap_is_Some.
Qed.

Lemma rebuild_inv p st : group_inv (rebuild three p st).
Proof.
  destruct (shirtGroupRef st) as [children|] eqn:Hg.
  - intros group Hgroup. right.
    rewrite (rebuild_group three p st children Hg) in Hgroup.
    injection Hgroup as <-.
    exists ([torsoMesh three (nextAddr st + 1) (nextAddr st);
             collarMesh three (nextAddr st + 2) (nextAddr st)]
            ++ sleeveParts three (sleeveLength p) (nextAddr st)
                           (nextAddr st + 3)),
           (decalMesh three (nextAddr st + 6) (nextAddr st + 5)).
    split; [by rewrite <- app_assoc|].
    split; [exact (rebuild_printMeshRef three p st children Hg)|].
    split; [done|].
    split; [simpl; by rewrite (rebuild_decal_material three p st children Hg)|].
    pose proof (rebuild_shared_material three p st children Hg) as Hs.
    apply Forall_app_2.
    + repeat constructor; simpl; try done; try lia; by rewrite Hs.
    + eapply Forall_impl; [apply sleeveParts_fresh|].
      intros m (<- & ? & ?). simpl. rewrite Hs.
      repeat split; try done; lia.
  - unfold rebuild. rewrite Hg. intros group Hgroup. congruence.
Qed.

Lemma update_inv st u : group_inv st -> group_inv (update three st u).
Proof.
  intros Hinv. destruct u as [c|q|q|q|i tex|i]; simpl.
  - destruct c; [|done]. intros children' [= <-]. by left.
  - apply rebuild_inv.
  - unfold colorEffect. destruct (shirtGroupRef st) as [l|] eqn:E; [|done].
    apply (group_inv_frame st); try done. simpl.
    intros k Hk. rewrite colorEffect_lookup.
    destruct (existsb _ l); [by rewrite fmap_is_Some | done].
  - unfold textureEffect.
    destruct (updateTexture_frame (designTexture q) (printMeshRef st) st)
      as (Hg & Hr & _).
    apply (group_inv_frame st); try done.
    intros k Hk. destruct (printMeshRef st) as [mesh|]; [|done].
    rewrite updateTexture_materials.
    destruct (truthy_opt (designTexture q)); [done|]. by apply is_Some_alter.
  - unfold loaded. destruct (loading st !! i) as [[url mat]|]; [|done].
    apply (group_inv_frame st); try done. simpl.
    intros k Hk. by apply is_Some_alter.
  - by apply (group_inv_frame st).
Qed.

Lemma updates_inv (us : list Update) :
  forall st, group_inv st -> group_inv (updates three st us).
Proof.
  unfold updates. induction us as [|u us IH]; intros st Hst; simpl; [done|].
  apply IH. by apply update_inv.
Qed.

Lemma unmounted_inv : group_inv unmounted.
Proof. intros children. discriminate. Qed.

(** The colour effect touches the material objects only. *)
Lemma colorEffect_frame p st :
  shirtGroupRef (colorEffect p st) = shirtGroupRef st /\
  printMeshRef (colorEffect p st) = printMeshRef st /\
  disposed (colorEffect p st) = disposed st /\
  loading (colorEffect p st) = loading st /\
  nextAddr (colorEffect p st) = nextAddr st.
Proof. unfold colorEffect. by destruct (shirtGroupRef st) eqn:E. Qed.

Lemma colorEffect_materials p st children :
  shirtGroupRef st = Some children ->
  materials (colorEffect p st) =
  foldl (colorChild (printMeshRef st) (shirtColor p)) (materials st) children.
Proof. intros Hg. unfold colorEffect. by rewrite Hg. Qed.

(** The parts other than the decal get the colour. *)
Lemma colorEffect_parts p st parts decal :
  group_inv st ->
  shirtGroupRef st = Some (parts ++ [decal]) ->
  Forall (fun m =>
            exists mat,
              materials st !! material m = Some mat /\
              materials (colorEffect p st) !! material m
                = Some (setColor (shirtColor p) mat))
         parts.
Proof.
  intros Hinv Hg.
  destruct (Hinv _ Hg) as [Hnil|(parts' & decal' & Heq & Hr & Hd & Hsome & Hp)].
  { by destruct parts. }
  apply app_inj_tail in Heq as [<- <-].
  rewrite (colorEffect_materials p st _ Hg), Hr.
  apply Forall_forall. intros m Hin.
  pose proof (proj1 (Forall_forall _ _) Hp m Hin)
    as (_ & Haddr & _ & [mat Hmat]).
  exists mat. split; [done|].
  rewrite colorEffect_lookup, Hmat.
  replace (existsb _ _) with true; [done|].
  symmetry. apply existsb_exists. exists m. split.
  - apply list_elem_of_In, elem_of_app. by left.
  - unfold recolours, notPrintMesh.
    rewrite Nat.eqb_refl, andb_true_r.
    by apply negb_true_iff, Nat.eqb_neq.
Qed.

(** The material of the mesh that [printMeshRef] holds is left alone. *)
Lemma colorEffect_decal p st decal :
  group_inv st ->
  printMeshRef st = Some decal ->
  materials (colorEffect p st) !! material decal
    = materials st !! material decal.
Proof.
  intros Hinv Hr.
  destruct (shirtGroupRef st) as [l|] eqn:Hg;
    [|unfold colorEffect; by rewrite Hg].
  rewrite (colorEffect_materials p st l Hg).
  destruct (Hinv l Hg) as [->|(parts & decal' & -> & Hr' & Hd & Hsome & Hp)];
    [done|].
  rewrite Hr in Hr'. injection Hr' as <-.
  rewrite colorEffect_lookup.
  replace (existsb _ _) with false; [done|].
  symmetry. rewrite existsb_app. apply orb_false_iff. split.
  - apply not_true_iff_false. intros (m & Hin & Hrec)%existsb_exists.
    apply list_elem_of_In in Hin.
    pose proof (proj1 (Forall_forall _ _) Hp m Hin) as (_ & _ & Hmat & _).
    unfold recolours in Hrec.
    apply andb_true_iff in Hrec as [_ Heq%Nat.eqb_eq]. done.
  - simpl. unfold recolours, notPrintMesh. rewrite Hr.
    by rewrite Nat.eqb_refl.
Qed.

(** *** The life of the component *)

Import Inv Lifecycle.

Lemma sleeveParts_length sleeveLength material a :
  length (sleeveParts three sleeveLength material a) = 2.
Proof. by destruct sleeveLength. Qed.

Lemma rebuild_built p st children :
  shirtGroupRef st = Some children -> built (rebuild three p st).
Proof.
  intros Hg. eexists.
  split; [exact (rebuild_group three p st children Hg)|].
  rewrite !length_app, sleeveParts_length. reflexivity.
Qed.

Lemma update_built st u :
  built st -> (forall container, u <> Mount container) ->
  built (update three st u).
Proof.
  intros Hb Hu. destruct u as [c|q|q|q|i tex|i].
  - by destruct (Hu c).
  - destruct Hb as (l & Hg & _). by apply (rebuild_built q st l).
  - destruct Hb as (l & Hg & Hl). exists l. split; [|done].
    by rewrite (proj1 (update_keeps_mesh three st (Recolor q) eq_refl)).
  - destruct Hb as (l & Hg & Hl). exists l. split; [|done].
    by rewrite (proj1 (update_keeps_mesh three st (Retexture q) eq_refl)).
  - destruct Hb as (l & Hg & Hl). exists l. split; [|done].
    by rewrite (proj1 (update_keeps_mesh three st (Loaded i tex) eq_refl)).
  - destruct Hb as (l & Hg & Hl). exists l. split; [|done].
    by rewrite (proj1 (update_keeps_mesh three st (LoadFailed i) eq_refl)).
Qed.

Lemma updates_built (us : list Update) :
  forall st,
    built st -> Forall (fun u => forall container, u <> Mount container) us ->
    built (updates three st us).
Proof.
  unfold updates. induction us as [|u us IH]; intros st Hb Hus; simpl; [done|].
  apply Forall_cons in Hus as [Hu Hus]. apply IH; [|done].
  by apply update_built.
Qed.

(** After the first render the scene is never set up again. *)
Lemma effects_no_mount prev next :
  Forall (fun u => forall container, u <> Mount container)
         (effects (Some prev) next).
Proof.
  unfold effects. change (changed (sceneDeps prev) (sceneDeps next)) with false.
  cbv iota. rewrite app_nil_l.
  repeat apply Forall_app_2;
    match goal with |- context [if ?b then _ else _] => destruct b end;
    repeat constructor; discriminate.
Qed.

Lemma mounted_built p : built (refs (mounted three p)).
Proof.
  unfold mounted, effects, updates. cbn [foldl refs].
  apply (updates_built [Recolor p; Retexture p]).
  - by apply (rebuild_built p _ []).
  - repeat constructor; discriminate.
Qed.

(** Whatever happens to the mounted component, its group holds the five
    meshes, of which the last one is the decal that [printMeshRef]
    holds. *)
Lemma run_inv (es : list Event) :
  forall c,
    group_inv (refs c) -> built (refs c) ->
    group_inv (refs (run three c es)) /\ built (refs (run three c es)).
Proof.
  unfold run. induction es as [|e es IH]; intros c Hinv Hb; simpl; [done|].
  apply IH; destruct e as [next|i tex|i]; simpl.
  - by apply updates_inv.
  - exact (update_inv (refs c) (Loaded i tex) Hinv).
  - exact (update_inv (refs c) (LoadFailed i) Hinv).
  - apply updates_built; [done | apply effects_no_mount].
  - by apply (update_built (refs c) (Loaded i tex)).
  - by apply (update_built (refs c) (LoadFailed i)).
Qed.

Lemma component_inv p es :
  group_inv (refs (run three (mounted three p) es)) /\
  built (refs (run three (mounted three p) es)).
Proof.
  apply run_inv; [|apply mounted_built].
  apply updates_inv, unmounted_inv.
Qed.

(** A built group, in parts. *)
Lemma built_group st :
  group_inv st -> built st ->
  exists parts decal,
    shirtGroupRef st = Some (parts ++ [decal]) /\ length parts = 4 /\
    printMeshRef st = Some decal /\
    shirtParts (parts ++ [decal]) = parts /\
    printDecals (parts ++ [decal]) = [decal] /\
    is_Some (materials st !! material decal).
Proof.
  intros Hinv (l & Hg & Hl).
  destruct (Hinv l Hg) as [->|(parts & decal & -> & Hr & Hd & Hsome & Hp)];
    [done|].
  exists parts, decal. split; [done|].
  split; [rewrite length_app in Hl; simpl in Hl; lia|].
  split; [done|]. split; [|split; [|done]].
  - unfold shirtParts. rewrite List.filter_app. simpl.
    rewrite (proj2 (is_part_printMesh decal) Hd). simpl.
    rewrite app_nil_r. apply filter_all.
    eapply Forall_impl; [exact Hp|]. intros m (Hm & _).
    by rewrite (proj2 (not_is_part_printMesh m) Hm).
  - unfold printDecals. rewrite List.filter_app. simpl.
    rewrite (proj2 (is_part_printMesh decal) Hd).
    rewrite filter_none; [done|].
    eapply Forall_impl; [exact Hp|]. intros m (Hm & _).
    by apply not_is_part_printMesh.
Qed.

Lemma effects_recoloured c p :
  c <> shirtColor p ->
  effects (Some p) (recoloured c p) = [Recolor (recoloured c p)].
Proof.
  intros Hc. unfold effects, changed, sceneDeps, rebuildDeps, colorDeps,
    textureDeps. cbn [recoloured sleeveLength fabricType designTexture shirtColor].
  repeat case_bool_decide; simpl; try done; congruence.
Qed.

(** C9. Let the component be mounted and let anything have happened to
    it since: renders with other props, textures decoded or not. When
    it is then rendered with another shirt colour and nothing else
    changed, the colour effect is the only effect that runs: the group
    is not rebuilt and no texture is bound. The group still holds the
    same five meshes, among them the same decal, no geometry is disposed
    of, no load is started and no object is created. The material object
    of each of the four parts other than the decal has the new colour
    and, for the rest, the fields it had; the decal's material object is
    what it was, map, opacity and colour included. *)
Theorem recolor_in_place (p : Props) (es : list Event) (c : jsstring)
    (before after : Component) :
  before = run three (mounted three p) es ->
  c <> shirtColor (props before) ->
  after = step three before (Render (recoloured c (props before))) ->
  effects (Some (props before)) (recoloured c (props before))
    = [Recolor (recoloured c (props before))] /\
  props after = recoloured c (props before) /\
  shirtGroupRef (refs after) = shirtGroupRef (refs before) /\
  printMeshRef (refs after) = printMeshRef (refs before) /\
  disposed (refs after) = disposed (refs before) /\
  loading (refs after) = loading (refs before) /\
  nextAddr (refs after) = nextAddr (refs before) /\
  exists parts decal dmat,
    shirtGroupRef (refs before) = Some (parts ++ [decal]) /\
    length parts = 4 /\
    printMeshRef (refs before) = Some decal /\
    shirtParts (parts ++ [decal]) = parts /\
    printDecals (parts ++ [decal]) = [decal] /\
    Forall (fun m =>
              exists mat,
                materials (refs before) !! material m = Some mat /\
                materials (refs after) !! material m =
                  Some {| color := Style c;
                          roughness := roughness mat;
                          metalness := metalness mat;
                          map := map mat;
                          transparent := transparent mat;
                          opacity := opacity mat;
                          side := side mat;
                          depthTest := depthTest mat;
                          depthWrite := depthWrite mat;
                          polygonOffset := polygonOffset mat;
                          polygonOffsetFactor := polygonOffsetFactor mat;
                          needsUpdate := needsUpdate mat |})
           parts /\
    materials (refs before) !! material decal = Some dmat /\
    materials (refs after) !! material decal = Some dmat.
Proof.
  intros Hbefore Hc ->.
  destruct (component_inv p es) as [Hinv Hb]. rewrite <- Hbefore in Hinv, Hb.
  pose proof (effects_recoloured c (props before) Hc) as He.
  split; [exact He|]. split; [done|].
  unfold step. rewrite He. unfold updates. cbn [foldl update refs].
  destruct (colorEffect_frame (recoloured c (props before)) (refs before))
    as (Hg & Hr & Hd & Hl & Hn).
  do 5 (split; [done|]).
  destruct (built_group (refs before) Hinv Hb)
    as (parts & decal & Hgroup & Hlen & Href & Hparts & Hdecals & [dmat Hdmat]).
  exists parts, decal, dmat. do 5 (split; [done|]).
  split; [exact (colorEffect_parts _ _ _ _ Hinv Hgroup)|].
  split; [done|].
  by rewrite (colorEffect_decal _ _ _ Hinv Href).
Qed.

End Recolor.

(** ** The theorems at work on the default shirt *)

(** C1 on the first build: short sleeves. *)
Lemma sleeve_configuration_witness :
  exists group,
    Viewer.shirtGroupRef
      (Viewer.rebuild sample_three sample_props sample_mounted) = Some group /\
    Viewer.part <$> Viewer.sleeveCylinders group
      = [Viewer.leftArm; Viewer.rightArm] /\
    Viewer.part <$> Viewer.shoulderCaps group = [].
Proof.
  destruct (sleeve_configuration sample_three sample_props sample_mounted []
              eq_refl) as (group & Hg & Hs & Hc & _).
  exists group. split; [exact Hg|]. split; [exact Hs | exact Hc].
Defined.

(** C3 on the first build: cotton. *)
Lemma fabric_material_table_witness :
  exists group,
    Viewer.shirtGroupRef
      (Viewer.rebuild sample_three sample_props sample_mounted) = Some group /\
    Forall (fun m =>
              exists mat,
                Viewer.materials
                  (Viewer.rebuild sample_three sample_props sample_mounted)
                  !! Viewer.material m = Some mat /\
                (Viewer.roughness mat, Viewer.metalness mat)
                  = (0.9%float, 0.0%float))
           group.
Proof.
  exact (proj2 (proj2 (proj2
           (fabric_material_table sample_three sample_props sample_mounted []
              eq_refl)))).
Defined.

(** C6 on the first build. *)
Lemma decal_always_present_witness :
  exists group decal mat,
    Viewer.shirtGroupRef
      (Viewer.rebuild sample_three sample_props sample_mounted) = Some group /\
    Viewer.printDecals group = [decal] /\
    Viewer.materials
      (Viewer.rebuild sample_three sample_props sample_mounted)
      !! Viewer.material decal = Some mat /\
    Viewer.opacity mat = 0%float.
Proof.
  destruct (decal_always_present sample_three sample_props sample_mounted []
              eq_refl)
    as (group & decal & mat & Hg & Hd & _ & Hm & _ & (_ & Ho & _) & _).
  exists group, decal, mat. auto.
Defined.

(** C9 on the default shirt, right after it is mounted: the shared
    material of torso, collar and sleeves turns white, the decal's
    material stays as it is. *)
Lemma recolor_in_place_witness :
  Viewer.color <$>
    Viewer.materials
      (Lifecycle.refs
         (Lifecycle.step sample_three
            (Lifecycle.mounted sample_three sample_props)
            (Lifecycle.Render
               (Lifecycle.recoloured (lit "#ffffff") sample_props)))) !! 0
  = Some (Viewer.Style (lit "#ffffff")) /\
  Viewer.materials
    (Lifecycle.refs
       (Lifecycle.step sample_three
          (Lifecycle.mounted sample_three sample_props)
          (Lifecycle.Render
             (Lifecycle.recoloured (lit "#ffffff") sample_props)))) !! 5
  = Viewer.materials
      (Lifecycle.refs (Lifecycle.mounted sample_three sample_props)) !! 5.
Proof.
  destruct (recolor_in_place sample_three sample_props [] (lit "#ffffff")
              _ _ eq_refl ltac:(vm_compute; discriminate) eq_refl)
    as (_ & _ & _ & _ & _ & _ & _ & parts & decal & dmat & Hg & _ & _ & _ & _
        & Hparts & Hd & Hd').
  injection Hg as Hg.
  assert (parts = removelast (parts ++ [decal])) as Hp
    by (by rewrite removelast_last).
  assert (decal = List.last (parts ++ [decal]) decal) as Hl
    by (by rewrite last_last).
  rewrite <- Hg in Hp, Hl. cbn in Hp, Hl. subst parts decal.
  apply Forall_cons in Hparts as [(mat & Hm & Hm') _].
  cbn [Viewer.material Viewer.torsoMesh Viewer.decalMesh Nat.add] in *.
  split.
  - exact (eq_trans (f_equal (fmap Viewer.color) Hm') eq_refl).
  - exact (eq_trans Hd' (eq_sym Hd)).
Defined.

(* ===================================================================== *)
(** * Further properties *)
(* ===================================================================== *)

Import Samples2 Inv.

(** ** More on [trim] *)

Section TrimMore.
Implicit Types s : jsstring.




Lemma truthy_trim s : truthy (trim s) = true -> truthy s = true.
Proof. destruct s; [|done]. by vm_compute. Qed.

End TrimMore.

(** ** The page: errors, busy flags and the upload flag *)

Section PageMore.
Import App Inv.

Lemma run_app l1 l2 s : run (l1 ++ l2) s = run l2 (run l1 s).
Proof. unfold run. apply foldl_app. Qed.

Lemma run_cons a l s : run (a :: l) s = run l (apply_action a s).
Proof. reflexivity. Qed.

Lemma run_updateState app u s :
  run (updateState app u) s =
  {| designState := spread (designState s) u;
     error := if truthy_opt (error app) then None else error s;
     isGeneratingDescription := isGeneratingDescription s;
     isEnhancing := isEnhancing s |}.
Proof.
  unfold updateState, run. by destruct (truthy_opt (error app)).
Qed.

(** X1. Every control that edits the design at once (theme, prompt,
    sleeve, fabric, colour, size, quantity, remove upload) leaves no
    error on display: an error that was showing is cleared. *)
Theorem edit_clears_error (p : Page) (e : Event) :
  edits e = true ->
  truthy_opt (error (state (dispatch e p))) = false /\
  inflight (dispatch e p) = inflight p.
Proof.
  intros He.
  assert (forall u, truthy_opt (error (run (updateState (state p) u) (state p)))
                    = false) as Hu.
  { intros u. rewrite run_updateState. simpl.
    by destruct (truthy_opt (error (state p))) eqn:E. }
  unfold dispatch.
  destruct e; try discriminate; simpl; (split; [apply Hu | done]).
Qed.

(** X2. When the call of an asynchronous handler settles, whatever the
    outcome and whatever the page has become meanwhile, the handler
    lowers the busy flag it raised; and a settled generation writes the
    image, the upload flag and the busy flag only, so what the user
    changed while it ran is kept. *)
Theorem settled_calls_lower_flags (app s : AppState) (r : Settled jsstring) :
  (forall call k,
     awaits (handleGenerateArt app) = Some (call, k) ->
     isGenerating (designState (run (k r) s)) = false /\
     theme (designState (run (k r) s)) = theme (designState s) /\
     prompt (designState (run (k r) s)) = prompt (designState s) /\
     shirtColor (designState (run (k r) s)) = shirtColor (designState s) /\
     size (designState (run (k r) s)) = size (designState s) /\
     sleeveLength (designState (run (k r) s)) = sleeveLength (designState s) /\
     fabric (designState (run (k r) s)) = fabric (designState s) /\
     quantity (designState (run (k r) s)) = quantity (designState s)) /\
  (forall call k,
     awaits (handleEnhancePrompt app) = Some (call, k) ->
     isEnhancing (run (k r) s) = false) /\
  (forall call k,
     awaits (handleAutoDescription app) = Some (call, k) ->
     isGeneratingDescription (run (k r) s) = false).
Proof.
  split; [|split]; intros call k.
  - unfold handleGenerateArt.
    destruct (truthy (prompt (designState app))); [|discriminate].
    intros [= _ <-].
    destruct r as [image|message]; cbv beta iota; unfold updateState;
      by destruct (truthy_opt (error app)).
  - unfold handleEnhancePrompt.
    destruct (truthy (trim (prompt (designState app)))); [|discriminate].
    intros [= _ <-].
    destruct r as [enhanced|message]; cbv beta iota; unfold updateState;
      by destruct (truthy_opt (error app)).
  - intros [= _ <-].
    destruct r as [creativePrompt|message]; cbv beta iota; unfold updateState;
      by destruct (truthy_opt (error app)).
Qed.

Lemma generate_enabled (s : AppState) :
  generateDisabled s = false ->
  isGenerating (designState s) = false /\
  truthy (prompt (designState s)) = true.
Proof.
  unfold generateDisabled. intros [Hg Ht]%orb_false_iff.
  split; [done|]. apply truthy_trim. by apply negb_false_iff.
Qed.

(** X3. When Generate is clicked on an enabled button and the generation
    fails, the page stops being busy, and the failure message (the
    error's own, or the fixed one when it has none; never empty) is on
    display only if no error was showing when the button was clicked:
    if one was, the closure of the handler still sees it and clears the
    new message as well. *)
Theorem failed_generation_message (p : Page) (message : option jsstring) :
  generateDisabled (state p) = false ->
  error (state (settle (length (inflight p)) (Rejected message)
                  (dispatch ClickGenerate p))) =
    (if truthy_opt (error (state p)) then None
     else Some (or_else message
                  (lit "Failed to generate design. Please try again."))) /\
  truthy (or_else message
            (lit "Failed to generate design. Please try again.")) = true /\
  isGenerating (designState (state (settle (length (inflight p))
                  (Rejected message) (dispatch ClickGenerate p)))) = false /\
  inflight (settle (length (inflight p)) (Rejected message)
              (dispatch ClickGenerate p)) = inflight p.
Proof.
  intros Hd. destruct (generate_enabled _ Hd) as [_ Hp].
  unfold dispatch, settle. simpl. rewrite Hd.
  unfold handleGenerateArt. rewrite Hp. simpl.
  rewrite list_lookup_middle by done. simpl.
  rewrite delete_middle, app_nil_r.
  assert (truthy (or_else message
            (lit "Failed to generate design. Please try again.")) = true)
    as Hm.
  { destruct message as [m|]; [|done]. simpl. by destruct (truthy m) eqn:E. }
  unfold updateState.
  destruct (truthy_opt (error (state p))) eqn:E; simpl; rewrite ?E; done.
Qed.

End PageMore.

(** X3 on a page with a prompt: the first failure shows the fixed
    message, a second failure right after it shows none. *)
Lemma failed_generation_message_witness :
  App.error (App.state sample_failed_page)
    = Some (lit "Failed to generate design. Please try again.") /\
  App.error (App.state
     (App.settle 0 (Rejected None)
        (App.dispatch App.ClickGenerate sample_failed_page))) = None.
Proof.
  split.
  - exact (proj1 (failed_generation_message sample_prompt_page None eq_refl)).
  - exact (proj1 (failed_generation_message sample_failed_page None eq_refl)).
Defined.

(** X1 on the failed page: editing the prompt clears the message. *)
Lemma edit_clears_error_witness :
  truthy_opt (App.error (App.state sample_failed_page)) = true /\
  truthy_opt (App.error (App.state
     (App.dispatch (App.EditPrompt sample_prompt) sample_failed_page))) = false.
Proof.
  split; [reflexivity|].
  exact (proj1 (edit_clears_error sample_failed_page
                  (App.EditPrompt sample_prompt) eq_refl)).
Defined.

(** ** The upload flag *)

Section Upload.
Import App Inv Controls.

Lemma apply_action_upload a s :
  keeps_upload a -> flagged_ok s -> flagged_ok (apply_action a s).
Proof.
  unfold flagged_ok.
  destruct a as [u| | | |]; simpl; try done.
  destruct (u_generatedImageBase64 u) as [image|],
           (u_uploadedImage u) as [[|]|]; simpl; try done.
Qed.

Lemma run_upload actions s :
  Forall keeps_upload actions -> flagged_ok s -> flagged_ok (run actions s).
Proof.
  unfold run. intros H. revert s.
  induction H as [|a l Ha Hl IH]; intros s Hs; simpl; [done|].
  apply IH. by apply apply_action_upload.
Qed.

Lemma updateState_upload app u :
  keeps_upload (SetDesignState u) -> Forall keeps_upload (updateState app u).
Proof.
  intros H. unfold updateState. constructor; [done|].
  destruct (truthy_opt (error app)); repeat constructor.
Qed.

Local Ltac upload :=
  repeat first
    [ done
    | apply Forall_app_2
    | apply updateState_upload; simpl
    | apply Forall_cons_2; simpl
    | apply Forall_nil_2
    | match goal with
      | |- context [if ?b then _ else _] => destruct b eqn:?; simpl
      end ].

Lemma handleUploadImage_upload app imageData :
  Forall keeps_upload (handleUploadImage app imageData).
Proof. unfold handleUploadImage. upload. Qed.

Lemma fire_sync_upload app e : Forall keeps_upload (sync (fire app e)).
Proof.
  destruct e; simpl;
    unfold handleEnhancePrompt, handleGenerateArt, handleAutoDescription;
    upload; apply handleUploadImage_upload.
Qed.

Lemma fire_awaits_upload app e c k r :
  awaits (fire app e) = Some (c, k) -> Forall keeps_upload (k r).
Proof.
  destruct e; simpl;
    unfold handleEnhancePrompt, handleGenerateArt, handleAutoDescription;
    repeat match goal with
           | |- context [if ?b then _ else _] => destruct b; simpl
           end;
    (intros [= <- <-] || discriminate);
    destruct r; simpl; upload; apply handleUploadImage_upload.
Qed.

Lemma step_upload p s : upload_inv p -> upload_inv (step p s).
Proof.
  intros [Hq Hk]. destruct s as [e | i r]; simpl.
  - unfold dispatch. split.
    + apply run_upload; [apply fire_sync_upload | done].
    + simpl. destruct (awaits (fire (state p) e)) as [[c k]|] eqn:E; [|done].
      apply Forall_app_2; [done|]. constructor; [|constructor].
      intros r. by eapply fire_awaits_upload.
  - unfold settle. destruct (inflight p !! i) as [k|] eqn:E; [|by split].
    split.
    + apply run_upload; [|done]. by apply (Forall_lookup_1 _ _ _ _ Hk E).
    + simpl. by apply Forall_delete.
Qed.

Lemma steps_upload l : forall p, upload_inv p -> upload_inv (steps p l).
Proof.
  unfold steps. induction l as [|s l IH]; intros p Hp; simpl; [done|].
  apply IH. by apply step_upload.
Qed.

(** X4. Whatever the user does and however the pending calls settle, an
    artwork that is marked as uploaded is a non-empty image; so the
    upload preview, which tests both the image and the flag, is on
    display exactly when the flag is set. *)
Theorem upload_flag_has_image (l : list Step) :
  uploadPreviewShown (designState (state (steps start l))) =
  uploadedImage (designState (state (steps start l))).
Proof.
  assert (upload_inv start) as H0 by (split; [done | constructor]).
  destruct (steps_upload l start H0) as [H _].
  unfold uploadPreviewShown.
  destruct (uploadedImage _) eqn:E; [|apply andb_false_r].
  by rewrite H.
Qed.

Example upload_preview_sample :
  uploadPreviewShown (designState (state (steps start sample_upload))) = true.
Proof. reflexivity. Qed.

End Upload.

(** ** The AI services behind the buttons *)

Section Services.
Import App Inv.

Lemma settle_last (s : AppState) (ks : list (Settled jsstring -> list Action))
    (k : Settled jsstring -> list Action) (r : Settled jsstring) :
  settle (length ks) r {| state := s; inflight := ks ++ [k] |} =
  {| state := run (k r) s; inflight := ks |}.
Proof.
  unfold settle. simpl. rewrite list_lookup_middle by done.
  by rewrite delete_middle, app_nil_r.
Qed.

Variable GEMINI_API_KEY : jsstring.
Variable generateContent : Gemini.Request -> Gemini.Outcome.

(** X5. Random Idea, from the click to the settled call. The busy flag
    is lowered in the end. Without an API key no request is sent. A
    missing key and a failing model both leave the prompt as it is and
    show the page's own message, not the service's. An answer replaces
    the prompt by its text and leaves no error; an answer without text
    empties the prompt, which disables the Generate button. *)
Theorem random_idea_end_to_end (p : Page) :
  ideaDisabled (state p) = false ->
  let theme := theme (designState (state p)) in
  let run :=
    GeminiService.generateCreativePrompt GEMINI_API_KEY generateContent theme in
  let p' := settle (length (inflight p)) (Gemini.settled run)
                   (dispatch ClickRandomIdea p) in
  isGeneratingDescription (state p') = false /\
  inflight p' = inflight p /\
  (truthy GEMINI_API_KEY = false -> Gemini.sent run = []) /\
  (truthy GEMINI_API_KEY = false \/
   generateContent (GeminiService.creativeRequest theme) = Gemini.Throws ->
   prompt (designState (state p')) = prompt (designState (state p)) /\
   error (state p') = Some (lit "Failed to generate description via AI.")) /\
  (forall text,
     truthy GEMINI_API_KEY = true ->
     generateContent (GeminiService.creativeRequest theme)
       = Gemini.Responds text ->
     prompt (designState (state p')) = or_else text [] /\
     error (state p') = None /\
     (truthy_opt text = false ->
      prompt (designState (state p')) = [] /\
      generateDisabled (state p') = true)).
Proof.
  intros Hd theme0 run0 p'.
  assert (p' = {| state := run (match Gemini.settled run0 with
                    | Resolved creativePrompt =>
                        updateState (state p)
                          (mkUpdates None (Some creativePrompt) None None None
                                     None None None None None)
                        ++ [SetIsGeneratingDescription false]
                    | Rejected _ =>
                        [ConsoleError;
                         SetError (Some (lit "Failed to generate description via AI."));
                         SetIsGeneratingDescription false]
                    end)
                    (run [SetIsGeneratingDescription true; SetError None]
                         (state p));
                  inflight := inflight p |}) as ->.
  { subst p'. unfold dispatch. simpl. rewrite Hd. simpl. apply settle_last. }
  subst run0. unfold GeminiService.generateCreativePrompt.
  destruct (truthy GEMINI_API_KEY) eqn:Hkey;
    cbn [negb Gemini.settled Gemini.sent].
  - destruct (generateContent (GeminiService.creativeRequest theme0))
      as [text|] eqn:Hgc; cbv beta iota.
    + rewrite run_app, run_updateState. simpl.
      split; [done|]. split; [done|]. split; [done|].
      split; [by intros [?|?]|].
      intros text' _ [= <-].
      split; [done|]. split; [by destruct (truthy_opt (error (state p)))|].
      intros Htext.
      assert (or_else text [] = []) as ->.
      { destruct text as [t|]; [|done]. simpl in *. by rewrite Htext. }
      split; [done|].
      unfold generateDisabled. simpl. apply orb_true_r.
    + split; [done|]. split; [done|]. split; [done|].
      split; [done|]. by intros text.
  - split; [done|]. split; [done|]. split; [done|].
    split; [done|]. by intros text.
Qed.


End Services.

(** X5 on the initial page, with a model that answers without text. *)
Lemma random_idea_end_to_end_witness :
  prompt (App.designState (App.state
    (App.settle 0
       (Gemini.settled
          (GeminiService.generateCreativePrompt sample_key
             (fun _ => Gemini.Responds None) CYBERPUNK))
       (App.dispatch App.ClickRandomIdea App.start)))) = [] /\
  App.generateDisabled (App.state
    (App.settle 0
       (Gemini.settled
          (GeminiService.generateCreativePrompt sample_key
             (fun _ => Gemini.Responds None) CYBERPUNK))
       (App.dispatch App.ClickRandomIdea App.start))) = true.
Proof.
  destruct (random_idea_end_to_end sample_key (fun _ => Gemini.Responds None)
              App.start eq_refl) as (_ & _ & _ & _ & H).
  destruct (H None eq_refl eq_refl) as (_ & _ & H').
  exact (H' eq_refl).
Defined.


(** ** Image generation *)

Section Design.
Import GeminiService Inv.

Variable toLowerCase : jsstring -> jsstring.
Variable inheritedText : jsstring -> jsstring.
Variable OPENAI_API_KEY : jsstring.
Variable fetch : OpenAI.ImageRequest -> OpenAI.Fetched.

Lemma b64_json_of_truthy parsed b64 :
  OpenAI.b64_json_of parsed = Some b64 -> truthy b64 = true.
Proof.
  destruct parsed as [e [[|[first|] rest]|]|m]; simpl; try discriminate.
  destruct (truthy first) eqn:E; [|discriminate]. by intros [= <-].
Qed.

(** X7. Whenever [generateTShirtDesign] resolves, a key was configured,
    one request was sent and answered with a status in 200-299, and the
    value is a data URL: the PNG prefix followed by a non-empty payload.
    Being non-empty, it makes the texture binder start a load and leave
    the material alone, never clear the decal. *)
Theorem generated_design_is_data_url (theme : Theme)
    (userPrompt shirtColorHex image : jsstring) :
  settled (generateTShirtDesign toLowerCase inheritedText OPENAI_API_KEY fetch
             theme userPrompt shirtColorHex) = Resolved image ->
  truthy OPENAI_API_KEY = true /\
  sent (generateTShirtDesign toLowerCase inheritedText OPENAI_API_KEY fetch
          theme userPrompt shirtColorHex)
    = [designRequest toLowerCase inheritedText OPENAI_API_KEY theme userPrompt
                     shirtColorHex] /\
  (exists r,
     fetch (designRequest toLowerCase inheritedText OPENAI_API_KEY theme
                          userPrompt shirtColorHex) = OpenAI.Answers r /\
     OpenAI.ok r = true) /\
  (exists b64,
     image = lit "data:image/png;base64," ++ b64 /\ truthy b64 = true) /\
  (forall mesh st,
     Viewer.materials (Viewer.updateTexture (Some image) (Some mesh) st)
       = Viewer.materials st /\
     Viewer.loading (Viewer.updateTexture (Some image) (Some mesh) st)
       = Viewer.loading st ++ [(image, Viewer.material mesh)]).
Proof.
  unfold generateTShirtDesign.
  destruct (truthy OPENAI_API_KEY) eqn:Hkey; simpl; [|discriminate].
  destruct (fetch _) as [m|r] eqn:Hf; [discriminate|].
  destruct (OpenAI.ok r) eqn:Hok; simpl; [|discriminate].
  destruct (OpenAI.parsed r) as [e d|m] eqn:Hp; [|discriminate].
  destruct (OpenAI.b64_json_of (OpenAI.Json e d)) as [b64|] eqn:Hb;
    [|discriminate].
  intros [= <-]. apply b64_json_of_truthy in Hb.
  split; [done|]. split; [done|]. split; [by exists r|].
  split; [by exists b64|].
  intros mesh st. by split.
Qed.

(** X8. [generateTShirtDesign] sends at most one request, and none
    without a key. An answer whose status is outside 200-299 never
    yields an image, whatever its body holds: the promise is rejected
    with "OpenAI API Error: " and a non-empty detail, the API's message
    or else the status line. *)
Theorem failed_status_yields_no_image (theme : Theme)
    (userPrompt shirtColorHex : jsstring) :
  length (sent (generateTShirtDesign toLowerCase inheritedText OPENAI_API_KEY
                  fetch theme userPrompt shirtColorHex)) <= 1 /\
  (truthy OPENAI_API_KEY = false ->
   sent (generateTShirtDesign toLowerCase inheritedText OPENAI_API_KEY fetch
           theme userPrompt shirtColorHex) = [] /\
   settled (generateTShirtDesign toLowerCase inheritedText OPENAI_API_KEY fetch
              theme userPrompt shirtColorHex)
     = Rejected (Some (lit "OpenAI API Key is missing. Please set the OPENAI_API_KEY environment variable."))) /\
  (forall r,
     truthy OPENAI_API_KEY = true ->
     fetch (designRequest toLowerCase inheritedText OPENAI_API_KEY theme
                          userPrompt shirtColorHex) = OpenAI.Answers r ->
     OpenAI.ok r = false ->
     exists detail,
       settled (generateTShirtDesign toLowerCase inheritedText OPENAI_API_KEY
                  fetch theme userPrompt shirtColorHex)
         = Rejected (Some (lit "OpenAI API Error: " ++ detail)) /\
       truthy detail = true /\
       (detail = lit "HTTP " ++ OpenAI.decimal (OpenAI.status r) ++ lit ": "
                 ++ OpenAI.statusText r \/
        OpenAI.error_message_of (OpenAI.parsed r) = Some detail)).
Proof.
  unfold generateTShirtDesign.
  destruct (truthy OPENAI_API_KEY) eqn:Hkey; simpl.
  - split; [lia|]. split; [done|].
    intros r _ -> Hok. rewrite Hok. simpl. eexists. split; [done|].
    destruct (OpenAI.error_message_of (OpenAI.parsed r)) as [m|]; simpl.
    + destruct (truthy m) eqn:Hm; [by auto|]. split; [done | by left].
    + split; [done | by left].
  - split; [lia|]. split; [done|]. intros r [=].
Qed.

End Design.

(** X7 with the sample API. *)
Lemma generated_design_is_data_url_witness :
  exists b64,
    lit "data:image/png;base64,AAAA" = lit "data:image/png;base64," ++ b64 /\
    truthy b64 = true.
Proof.
  exact (proj1 (proj2 (proj2 (proj2
    (generated_design_is_data_url asciiLower (fun s => s) sample_key
       sample_openai ANIME sample_prompt DEFAULT_SHIRT_COLOR
       (lit "data:image/png;base64,AAAA") eq_refl))))).
Defined.

(** X8 with an API that is out of quota. *)
Lemma failed_status_yields_no_image_witness :
  exists detail,
    GeminiService.settled
      (GeminiService.generateTShirtDesign asciiLower (fun s => s) sample_key
         sample_quota ANIME sample_prompt DEFAULT_SHIRT_COLOR)
      = Rejected (Some (lit "OpenAI API Error: " ++ detail)) /\
    truthy detail = true.
Proof.
  destruct (failed_status_yields_no_image asciiLower (fun s => s) sample_key
              sample_quota ANIME sample_prompt DEFAULT_SHIRT_COLOR)
    as (_ & _ & H).
  destruct (H _ eq_refl eq_refl eq_refl) as (detail & Hs & Ht & _).
  by exists detail.
Defined.

Example quota_message :
  GeminiService.settled
    (GeminiService.generateTShirtDesign asciiLower (fun s => s) sample_key
       sample_quota ANIME sample_prompt DEFAULT_SHIRT_COLOR)
  = Rejected (Some (lit "OpenAI API Error: HTTP 429: Too Many Requests")).
Proof. vm_compute. reflexivity. Qed.

(** ** Colour names *)

Section ColorNames.
Import GeminiService Inv Controls.

Variable toLowerCase : jsstring -> jsstring.

(** On ASCII strings [toLowerCase] lowers the letters A to Z and keeps
    the rest. *)
Hypothesis toLowerCase_ascii :
  forall s, isAscii s -> toLowerCase s = asciiLower s.

Lemma colorMap_truthy key name :
  own_property colorMap key = Some name -> truthy name = true.
Proof.
  unfold colorMap. simpl.
  repeat (destruct (strict_eq _ key); [by intros [= <-]|]).
  discriminate.
Qed.

Lemma hash_not_inherited (rest : jsstring) :
  bool_decide ((35%N :: rest) ∈ Object_prototype) = false.
Proof.
  apply bool_decide_eq_false. intros H.
  unfold Object_prototype in H. vm_compute fmap in H.
  repeat (apply elem_of_cons in H as [H|H]; [discriminate H|]).
  by apply elem_of_nil in H.
Qed.

(** X9. For a colour string, that is an ASCII string that starts with
    "#", [hexToColorName] returns a string, never an inherited property
    of the map: the name the table gives to the lower-cased colour, or
    "color " followed by the colour as it was spelt. Every swatch of the
    controls and the default shirt colour have a name in the table. *)
Theorem color_names_of_palette :
  (forall rest,
     isAscii rest ->
     hexToColorName toLowerCase (35%N :: rest) =
     Name (default (lit "color " ++ 35%N :: rest)
                   (own_property colorMap (35%N :: asciiLower rest)))) /\
  Forall (fun hex =>
            exists name,
              hexToColorName toLowerCase hex = Name name /\
              (hex, name) ∈ colorMap)
         (DEFAULT_SHIRT_COLOR :: SHIRT_COLORS).
Proof using toLowerCase_ascii.
  assert (forall rest,
            isAscii rest ->
            hexToColorName toLowerCase (35%N :: rest) =
            Name (default (lit "color " ++ 35%N :: rest)
                          (own_property colorMap (35%N :: asciiLower rest))))
    as Hhex.
  { intros rest Hrest. unfold hexToColorName.
    rewrite toLowerCase_ascii by (constructor; [done | exact Hrest]).
    change (asciiLower (35%N :: rest)) with (35%N :: asciiLower rest).
    destruct (own_property colorMap _) as [name|] eqn:E.
    - by rewrite (colorMap_truthy _ _ E).
    - by rewrite hash_not_inherited. }
  split; [exact Hhex|].
  unfold SHIRT_COLORS, DEFAULT_SHIRT_COLOR.
  repeat (constructor;
    [eexists; split;
       [apply Hhex; vm_compute; repeat constructor
       |vm_compute; repeat first [by left | right]]|]).
  constructor.
Qed.

End ColorNames.

(** X9 with the lowering of ASCII letters itself. *)
Lemma color_names_of_palette_witness :
  GeminiService.hexToColorName asciiLower (lit "#1E293B")
  = GeminiService.Name (lit "dark navy blue") /\
  GeminiService.hexToColorName asciiLower (lit "#808080")
  = GeminiService.Name (lit "color #808080").
Proof.
  destruct (color_names_of_palette asciiLower (fun s _ => eq_refl)) as [H _].
  split.
  - exact (H (lit "1E293B") ltac:(vm_compute; repeat constructor)).
  - exact (H (lit "808080") ltac:(vm_compute; repeat constructor)).
Defined.

(** ** The image API handler *)

Section ApiHandler.
Import Api Inv.

Variable typeErrorMessage : option jsstring.
Variable env : Env.
Variable fetch : OpenAI.ImageRequest -> OpenAI.Fetched.

Lemma or_else_truthy (a : option jsstring) (b : jsstring) :
  truthy b = true -> truthy (or_else a b) = true.
Proof.
  intros Hb. destruct a as [s|]; [|done]. simpl.
  by destruct (truthy s) eqn:E.
Qed.

(** X10. The handler passes a request on to the image API exactly when
    it is a POST, a key is configured and the body holds a non-empty
    prompt; it then sends one request, with that key and prompt, size
    1024x1024 and quality hd unless the body names others. In every
    other case nothing is sent. The CORS headers are on every
    response. *)
Theorem handler_passes_on (req : VercelRequest) :
  headers (response (handler typeErrorMessage env fetch req)) = cors /\
  (accepted env req = false ->
   upstream (handler typeErrorMessage env fetch req) = []) /\
  (accepted env req = true ->
   exists key b p,
     first_truthy (VITE_OPENAI_API_KEY env) (OPENAI_API_KEY env) = Some key /\
     truthy key = true /\
     body req = Some b /\ prompt b = Some p /\ truthy p = true /\
     upstream (handler typeErrorMessage env fetch req) =
       [ {| OpenAI.authorization := lit "Bearer " ++ key;
            OpenAI.model := lit "dall-e-3";
            OpenAI.prompt := p;
            OpenAI.n := 1;
            OpenAI.size := default (lit "1024x1024") (size b);
            OpenAI.response_format := lit "b64_json";
            OpenAI.quality := default (lit "hd") (quality b) |} ]).
Proof.
  unfold handler, accepted.
  destruct (strict_eq (method req) (lit "OPTIONS")) eqn:Ho.
  { apply bool_decide_eq_true in Ho. rewrite Ho.
    split; [done|]. split; [done|]. discriminate. }
  destruct (strict_eq (method req) (lit "POST")) eqn:Hp; simpl;
    [|split; [done|]; split; [done | discriminate]].
  destruct (first_truthy _ _) as [key|] eqn:Hk; simpl;
    [|split; [done|]; split; [done | discriminate]].
  destruct (truthy key) eqn:Hkey; simpl;
    [|split; [done|]; split; [done | discriminate]].
  destruct (body req) as [b|] eqn:Hb;
    [|split; [done|]; split; [done | discriminate]].
  destruct (prompt b) as [p|] eqn:Hprompt; simpl;
    [|split; [done|]; split; [done | discriminate]].
  destruct (truthy p) eqn:Htp; simpl;
    [|split; [done|]; split; [done | discriminate]].
  split.
  - destruct (fetch _) as [m|r]; [done|].
    destruct (OpenAI.ok r); simpl; [|done].
    destruct (OpenAI.parsed r) as [e d|m]; [|done].
    by destruct (OpenAI.b64_json_of _).
  - split; [discriminate|]. intros _. by exists key, b, p.
Qed.

Local Ltac error_only :=
  split;
    [ intros ? [= <-];
      split; [first [done | by apply or_else_truthy] | first [done | eassumption]]
    | split; [intros ? [=] | intros [=]] ].

(** X11. What the handler answers. An error body is never empty and
    never comes with a status in 200-299. An image comes with status 200
    only, and only when the image API answered with a status in 200-299
    and a non-empty [b64_json], of which the image is the data URL. An
    empty answer is the one to OPTIONS, with status 200. *)
Theorem handler_answers (req : VercelRequest) :
  (forall e,
     payload (response (handler typeErrorMessage env fetch req)) = ErrorJson e ->
     truthy e = true /\
     success (status (response (handler typeErrorMessage env fetch req)))
       = false) /\
  (forall image,
     payload (response (handler typeErrorMessage env fetch req))
       = ImageJson image ->
     status (response (handler typeErrorMessage env fetch req)) = 200%N /\
     accepted env req = true /\
     exists request r b64,
       upstream (handler typeErrorMessage env fetch req) = [request] /\
       fetch request = OpenAI.Answers r /\ OpenAI.ok r = true /\
       OpenAI.b64_json_of (OpenAI.parsed r) = Some b64 /\
       truthy b64 = true /\
       image = lit "data:image/png;base64," ++ b64) /\
  (payload (response (handler typeErrorMessage env fetch req)) = Ended ->
   method req = lit "OPTIONS" /\
   status (response (handler typeErrorMessage env fetch req)) = 200%N).
Proof.
  unfold handler, accepted.
  destruct (strict_eq (method req) (lit "OPTIONS")) eqn:Ho.
  { apply bool_decide_eq_true in Ho.
    split; [intros e [=]|]. split; [intros image [=] | done]. }
  destruct (strict_eq (method req) (lit "POST")) eqn:Hp; simpl;
    [|error_only].
  destruct (first_truthy _ _) as [key|] eqn:Hk; simpl; [|error_only].
  destruct (truthy key) eqn:Hkey; simpl; [|error_only].
  destruct (body req) as [b|] eqn:Hb; [|error_only].
  destruct (prompt b) as [p|] eqn:Hprompt; simpl; [|error_only].
  destruct (truthy p) eqn:Htp; simpl; [|error_only].
  destruct (fetch _) as [m|r] eqn:Hf; [error_only|].
  destruct (OpenAI.ok r) eqn:Hok; simpl; [|error_only].
  destruct (OpenAI.parsed r) as [e d|m] eqn:Hparsed; [|error_only].
  destruct (OpenAI.b64_json_of (OpenAI.Json e d)) as [b64|] eqn:H64;
    [|error_only].
  split; [intros e' [=]|]. split; [|intros [=]].
  intros image [= <-]. split; [done|]. split; [done|].
  eexists _, r, b64. rewrite Hparsed.
  repeat split; try done. by apply (b64_json_of_truthy _ _ H64).
Qed.

End ApiHandler.

(** X10 and X11 on a POST with a prompt: the request carries the
    defaults, and the image comes with status 200. *)
Lemma handler_passes_on_witness :
  OpenAI.size <$> Api.upstream (Api.handler None sample_env sample_openai
                                  sample_post)
    = [lit "1024x1024"] /\
  OpenAI.quality <$> Api.upstream (Api.handler None sample_env sample_openai
                                     sample_post)
    = [lit "hd"].
Proof.
  destruct (handler_passes_on None sample_env sample_openai sample_post)
    as (_ & _ & H).
  destruct (H eq_refl) as (key & b & p & _ & _ & Hb & _ & _ & ->).
  injection Hb as <-. split; reflexivity.
Defined.

Lemma handler_answers_witness :
  Api.status (Api.response (Api.handler None sample_env sample_openai
                              sample_post)) = 200%N /\
  success (Api.status (Api.response (Api.handler None sample_env sample_quota
                                       sample_post))) = false.
Proof.
  destruct (handler_answers None sample_env sample_openai sample_post)
    as (_ & Himage & _).
  destruct (handler_answers None sample_env sample_quota sample_post)
    as (Herror & _ & _).
  split.
  - exact (proj1 (Himage (lit "data:image/png;base64,AAAA") eq_refl)).
  - exact (proj2 (Herror (lit "HTTP 429") eq_refl)).
Defined.

(** ** Image suggestions *)

Section Suggestions.
Import Pixabay.

Variable PIXABAY_API_KEY : jsstring.
Variable encodeURIComponent : jsstring -> option jsstring.
Variable fetch : jsstring -> Fetched.

(** X12. [searchPixabayImages] fetches at most one URL, and none when
    the key is missing or the query is blank; in both cases it finds
    nothing. It finds an image only if the key is set, the query is not
    blank and could be encoded, and the one URL it fetched (with the key,
    the encoded query and the page size) was answered with [ok] and a
    body that parsed; what it finds are the hits of that answer. Every
    failure it logs finds nothing. *)
Theorem pixabay_search_outcomes (query : jsstring) (perPage : N) :
  length (requested (searchPixabayImages PIXABAY_API_KEY encodeURIComponent fetch query perPage)) <= 1 /\
  (truthy PIXABAY_API_KEY = false \/ blank query = true ->
   requested (searchPixabayImages PIXABAY_API_KEY encodeURIComponent fetch query perPage) = [] /\ found (searchPixabayImages PIXABAY_API_KEY encodeURIComponent fetch query perPage) = []) /\
  (logged (searchPixabayImages PIXABAY_API_KEY encodeURIComponent fetch query perPage) = true -> found (searchPixabayImages PIXABAY_API_KEY encodeURIComponent fetch query perPage) = []) /\
  (found (searchPixabayImages PIXABAY_API_KEY encodeURIComponent fetch query perPage) <> [] ->
   truthy PIXABAY_API_KEY = true /\ blank query = false /\
   exists encoded,
     encodeURIComponent query = Some encoded /\
     requested (searchPixabayImages PIXABAY_API_KEY encodeURIComponent fetch query perPage)
       = [searchURL PIXABAY_API_KEY encoded perPage] /\
     fetch (searchURL PIXABAY_API_KEY encoded perPage)
       = Answers true (Some (found (searchPixabayImages PIXABAY_API_KEY encodeURIComponent fetch query perPage)))).
Proof.
  unfold searchPixabayImages.
  destruct (truthy PIXABAY_API_KEY) eqn:Hkey; simpl;
    [|by repeat split; try lia].
  rewrite not_trim_blank.
  destruct (blank query) eqn:Hb; simpl.
  { split; [lia|]. do 3 (split; [done|]). done. }
  destruct (encodeURIComponent query) as [encoded|] eqn:He; simpl.
  2:{ split; [lia|]. split; [by intros [?|?]|]. by split. }
  destruct (fetch _) as [|ok hits] eqn:Hf; simpl.
  { split; [lia|]. split; [by intros [?|?]|]. by split. }
  destruct ok; simpl.
  2:{ split; [lia|]. split; [by intros [?|?]|]. by split. }
  destruct hits as [hits|]; simpl.
  2:{ split; [lia|]. split; [by intros [?|?]|]. by split. }
  split; [lia|]. split; [by intros [?|?]|]. split; [done|].
  intros _. do 2 (split; [done|]). by exists encoded.
Qed.










End Suggestions.

(** X12 with the sample service. *)
Lemma pixabay_search_outcomes_witness :
  Pixabay.requested
    (Pixabay.searchPixabayImages sample_key Some sample_pixabay (lit "wolf") 6)
  = [Pixabay.searchURL sample_key (lit "wolf") 6].
Proof.
  destruct (pixabay_search_outcomes sample_key Some sample_pixabay
              (lit "wolf") 6) as (_ & _ & _ & H).
  destruct (H ltac:(discriminate)) as (_ & _ & encoded & He & Hr & _).
  injection He as <-. exact Hr.
Defined.

(** X13 with the sample service: the prompt grows from two letters to
    four before the timeout elapses. The panel was shown for the three
    letters, and the only search is the one for the four. *)
Example superseded_prompt_is_not_searched :
  Pixabay.suggestionsShown (lit "wol") = true /\
  Pixabay.searched
    (Pixabay.hook_run sample_key Some sample_pixabay
       (Pixabay.mountHook (lit "wo"))
       [Pixabay.Rerender (lit "wol"); Pixabay.Rerender (lit "wolf");
        Pixabay.TimerFires; Pixabay.SearchDone 0])
  = [lit "wolf"] /\
  Pixabay.suggestions
    (Pixabay.hook_run sample_key Some sample_pixabay
       (Pixabay.mountHook (lit "wo"))
       [Pixabay.Rerender (lit "wol"); Pixabay.Rerender (lit "wolf");
        Pixabay.TimerFires; Pixabay.SearchDone 0])
  = {| Pixabay.images := [sample_hit]; Pixabay.isLoading := false |}.
Proof. vm_compute. repeat split; reflexivity. Qed.

Example pixabay_url_sample :
  Pixabay.searchURL sample_key (lit "wolf") 6 =
  lit "https://pixabay.com/api/?key=k&q=wolf&per_page=6&image_type=photo&safesearch=true".
Proof. vm_compute. reflexivity. Qed.

(** ** The category of an anime query *)

Section Category.
Import Nekos.

Lemma startsWith_spec (s prefix : jsstring) :
  startsWith s prefix = true <-> exists r, s = prefix ++ r.
Proof.
  revert s. induction prefix as [|p prefix IH]; intros s; simpl.
  - destruct s; split; eauto.
  - destruct s as [|c s]; simpl.
    + split; [done | by intros [r Hr]].
    + rewrite andb_true_iff, N.eqb_eq, IH. split.
      * intros [-> [r ->]]. by exists r.
      * intros [r [= -> ->]]. eauto.
Qed.

(** [includes] finds exactly the contiguous substrings. *)
Lemma includes_spec (s sub : jsstring) :
  includes s sub = true <-> exists l r, s = l ++ sub ++ r.
Proof.
  induction s as [|c s IH].
  - destruct sub as [|p sub]; simpl.
    + split; [intros _; by exists [], [] | done].
    + split; [done | intros (l & r & H); by destruct l].
  - cbn [includes]. rewrite orb_true_iff, startsWith_spec, IH. split.
    + intros [[r Hr] | (l & r & ->)].
      * by exists [], r.
      * by exists (c :: l), r.
    + intros ([|c' l] & r & H).
      * left. by exists r.
      * right. injection H as -> ->. by exists l, r.
Qed.

Lemma matchCategory_sound entries q c :
  matchCategory entries q = Some c ->
  exists keyword,
    (keyword, c) ∈ entries /\
    (includes q keyword = true \/ includes keyword q = true).
Proof.
  induction entries as [|[keyword category] rest IH]; simpl; [done|].
  destruct (includes q keyword || includes keyword q) eqn:E.
  - intros [= <-]. exists keyword. split; [by left|].
    by apply orb_true_iff.
  - intros H. destruct (IH H) as (kw & Hin & Hm).
    exists kw. split; [by right | done].
Qed.

Lemma matchCategory_complete entries q keyword category :
  (keyword, category) ∈ entries ->
  includes q keyword = true \/ includes keyword q = true ->
  is_Some (matchCategory entries q).
Proof.
  intros Hin Hm. induction entries as [|[kw c] rest IH]; simpl.
  - by apply elem_of_nil in Hin.
  - destruct (includes q kw || includes kw q) eqn:E; [by eexists|].
    apply elem_of_cons in Hin as [[= <- <-] | Hin]; [|by apply IH].
    apply orb_true_iff in Hm. congruence.
Qed.

Lemma categories_available :
  Forall (fun kv => kv.2 ∈ AVAILABLE_CATEGORIES /\ truthy kv.2 = true)
         CATEGORY_MAPPINGS.
Proof.
  unfold CATEGORY_MAPPINGS, AVAILABLE_CATEGORIES. vm_compute fmap.
  repeat constructor; vm_compute; repeat first [by left | right].
Qed.

Variable toLowerCase : jsstring -> jsstring.

(** X14. [searchAnimeImagesByQuery] asks for one category only if that
    category is one of the four available ones, and with the limit it
    was given. It does so, rather than asking for mixed images, whenever
    the lower-cased query holds one of the keywords or is a part of one;
    in particular for the empty query, which is a part of the first
    keyword and gets its category, neko. *)
Theorem category_of_query (query : jsstring) (limit : N) :
  (forall limit' category,
     searchAnimeImagesByQuery toLowerCase query limit
       = getRandomAnimeImages limit' category ->
     limit' = limit /\ category ∈ AVAILABLE_CATEGORIES) /\
  (forall keyword category l r,
     (keyword, category) ∈ CATEGORY_MAPPINGS ->
     toLowerCase query = l ++ keyword ++ r \/
     keyword = l ++ toLowerCase query ++ r ->
     exists c,
       searchAnimeImagesByQuery toLowerCase query limit
         = getRandomAnimeImages limit c) /\
  (toLowerCase query = [] ->
   searchAnimeImagesByQuery toLowerCase query limit
     = getRandomAnimeImages limit (lit "neko")).
Proof.
  unfold searchAnimeImagesByQuery. split; [|split].
  - intros limit' category.
    destruct (matchCategory _ _) as [c|] eqn:E; [|discriminate].
    destruct (matchCategory_sound _ _ _ E) as (kw & Hin & _).
    pose proof (proj1 (Forall_forall _ _) categories_available _ Hin)
      as [Hav Ht].
    simpl in Ht. rewrite Ht. by intros [= <- <-].
  - intros keyword category l r Hin Hm.
    assert (includes (toLowerCase query) keyword = true \/
            includes keyword (toLowerCase query) = true) as Hinc.
    { destruct Hm as [Hm|Hm]; [left|right]; apply includes_spec; eauto. }
    destruct (matchCategory_complete _ _ _ _ Hin Hinc) as [c E].
    rewrite E.
    destruct (matchCategory_sound _ _ _ E) as (kw & Hin' & _).
    pose proof (proj1 (Forall_forall _ _) categories_available _ Hin')
      as [_ Ht].
    simpl in Ht. rewrite Ht. by exists c.
  - intros ->. reflexivity.
Qed.

End Category.

(** X14 on a query that holds two keywords: the earlier entry wins. *)
Lemma category_of_query_witness :
  exists c,
    Nekos.searchAnimeImagesByQuery asciiLower (lit "Fox and Cat") 6
      = Nekos.getRandomAnimeImages 6 c /\
    c ∈ Nekos.AVAILABLE_CATEGORIES.
Proof.
  destruct (category_of_query asciiLower (lit "Fox and Cat") 6)
    as (Hav & Hany & _).
  destruct (Hany (lit "fox") (lit "kitsune") [] (lit " and cat")
              ltac:(vm_compute; repeat first [by left | right])
              (or_introl eq_refl)) as [c Hc].
  exists c. split; [exact Hc|]. exact (proj2 (Hav 6%N c Hc)).
Defined.

Example category_first_entry_wins :
  Nekos.searchAnimeImagesByQuery asciiLower (lit "Fox and Cat") 6
  = Nekos.getRandomAnimeImages 6 (lit "neko").
Proof. reflexivity. Qed.

(** ** The viewer: rebuilds, recolouring and overlapping texture loads *)

Section ViewerMore.
Import Viewer Spec Inv.

Variable three : Shape -> list Vertex.

Lemma updateTexture_loading texUrl mesh st :
  loading (updateTexture texUrl (Some mesh) st) =
  loading st ++
  match texUrl with
  | Some url => if truthy url then [(url, material mesh)] else []
  | None => []
  end.
Proof.
  unfold updateTexture.
  destruct texUrl as [url|]; [destruct (truthy url)|]; simpl;
    by rewrite ?app_nil_r.
Qed.

Lemma rebuild_loading p st children :
  shirtGroupRef st = Some children ->
  loading (rebuild three p st) =
  loading st ++
  match designTexture p with
  | Some url => if truthy url then [(url, nextAddr st + 5)] else []
  | None => []
  end.
Proof.
  intros Hg. unfold rebuild. rewrite Hg. by rewrite updateTexture_loading.
Qed.

Lemma rebuild_nextAddr p st children :
  shirtGroupRef st = Some children ->
  nextAddr (rebuild three p st) = nextAddr st + 7.
Proof.
  intros Hg. unfold rebuild. rewrite Hg.
  by rewrite (proj2 (proj2 (proj2 (updateTexture_frame _ _ _)))).
Qed.

Lemma loaded_frame i tex st :
  shirtGroupRef (loaded i tex st) = shirtGroupRef st /\
  printMeshRef (loaded i tex st) = printMeshRef st /\
  disposed (loaded i tex st) = disposed st /\
  nextAddr (loaded i tex st) = nextAddr st.
Proof. unfold loaded. by destruct (loading st !! i) as [[url mat]|]. Qed.

Lemma loaded_at st i url mat tex :
  loading st !! i = Some (url, mat) ->
  loaded i tex st =
  with_loading (delete i (loading st))
    (with_materials (alter (bindMap tex) mat (materials st)) st).
Proof. unfold loaded. by intros ->. Qed.

(** Updates that neither rebuild the mesh nor decode a load for the
    material of the print mesh leave that mesh in place and its material
    as transparent as it was. *)
Lemma undecoded_shows_nothing (us : list Update) :
  forall st decal mat,
    group_inv st ->
    printMeshRef st = Some decal ->
    materials st !! material decal = Some mat ->
    shows_nothing mat ->
    undecoded three (material decal) st us = true ->
    group_inv (updates three st us) /\
    shirtGroupRef (updates three st us) = shirtGroupRef st /\
    printMeshRef (updates three st us) = Some decal /\
    exists mat',
      materials (updates three st us) !! material decal = Some mat' /\
      shows_nothing mat'.
Proof.
  unfold updates.
  induction us as [|u us IH]; intros st decal mat Hinv Hr Hm Hn Hus; simpl.
  { split; [done|]. split; [done|]. split; [done|]. by exists mat. }
  simpl in Hus.
  apply andb_true_iff in Hus as [[Hk Hd%negb_true_iff]%andb_true_iff Hus].
  destruct (update_keeps_mesh three st u Hk) as (Hg' & Hr' & _).
  assert (exists mat', materials (update three st u) !! material decal
                         = Some mat' /\ shows_nothing mat')
    as (mat' & Hm' & Hn').
  { destruct u as [c|q|q|q|i tex|i]; simpl in *; try discriminate.
    - exists mat. split; [|done].
      by rewrite (colorEffect_decal q st decal Hinv Hr).
    - unfold textureEffect. rewrite Hr, updateTexture_materials.
      destruct (truthy_opt (designTexture q)); [by exists mat|].
      exists (clearMap mat). rewrite lookup_alter_eq, Hm.
      split; [done|]. by destruct Hn as (? & ? & ?).
    - exists mat. split; [|done]. unfold loaded.
      destruct (loading st !! i) as [[url k]|]; [|done].
      simpl. apply Nat.eqb_neq in Hd. by rewrite lookup_alter_ne.
    - by exists mat. }
  destruct (IH (update three st u) decal mat') as (? & -> & ? & ?); auto.
  - by apply update_inv.
  - by rewrite Hr'.
Qed.

(** X15. A rebuild while an artwork is bound starts a new load for the
    material of the new decal. Whatever follows short of the next
    rebuild, the new decal stays in place, and it stays fully
    transparent (opacity 0, no map) as long as no load for its material
    has decoded: through recolourings, texture effects, failed loads and
    the callbacks of loads for other materials. When any pending load
    for its material then decodes, be it the one the rebuild started or
    one that a texture effect started meanwhile, the decal shows the
    decoded image: its map is that texture in the sRGB colour space and
    its opacity is 1. *)
Theorem rebuild_rebinds_artwork (p : Props) (st : Refs)
    (children : list Mesh) (url : jsstring) :
  shirtGroupRef st = Some children ->
  designTexture p = Some url -> truthy url = true ->
  loading (rebuild three p st) = loading st ++ [(url, nextAddr st + 5)] /\
  forall us st',
    undecoded three (nextAddr st + 5) (rebuild three p st) us = true ->
    st' = updates three (rebuild three p st) us ->
    shirtGroupRef st' = shirtGroupRef (rebuild three p st) /\
    printMeshRef st'
      = Some (decalMesh three (nextAddr st + 6) (nextAddr st + 5)) /\
    (exists mat,
       materials st' !! (nextAddr st + 5) = Some mat /\
       opacity mat = 0%float /\ map mat = None /\ transparent mat = true) /\
    forall i url' tex,
      loading st' !! i = Some (url', nextAddr st + 5) ->
      printMeshRef (loaded i tex st')
        = Some (decalMesh three (nextAddr st + 6) (nextAddr st + 5)) /\
      exists mat',
        materials (loaded i tex st') !! (nextAddr st + 5) = Some mat' /\
        opacity mat' = 1%float /\
        map mat' = Some {| image := image tex; colorSpace := SRGBColorSpace;
                           flipY := true |}.
Proof.
  intros Hg Hurl Ht.
  pose proof (rebuild_loading p st children Hg) as Hl.
  pose proof (rebuild_decal_material three p st children Hg) as Hm.
  pose proof (rebuild_printMeshRef three p st children Hg) as Hr.
  rewrite Hurl in Hl, Hm. simpl in Hm. rewrite Ht in Hl, Hm.
  split; [exact Hl|]. intros us st' Hus ->.
  destruct (undecoded_shows_nothing us (rebuild three p st)
              (decalMesh three (nextAddr st + 6) (nextAddr st + 5))
              (printMat (fabricMaterial (fabricType p)))
              (rebuild_inv three p st) Hr Hm ltac:(by repeat split) Hus)
    as (_ & Hg' & Hr' & mat & Hmat & Ho & Hmap & Htr).
  simpl in Hmat.
  split; [done|]. split; [done|]. split; [by exists mat|].
  intros i url' tex Hi.
  destruct (loaded_frame i tex (updates three (rebuild three p st) us))
    as (_ & -> & _).
  split; [done|].
  exists (bindMap tex mat). split; [|done].
  rewrite (loaded_at _ i url' (nextAddr st + 5) tex Hi). simpl.
  by rewrite lookup_alter_eq, Hmat.
Qed.

(** *** Addresses are fresh *)

Lemma update_fresh st u : fresh_inv st -> fresh_inv (update three st u).
Proof.
  intros [Href Hload]. destruct u as [c|q|q|q|i tex|i]; simpl.
  - by destruct c.
  - destruct (shirtGroupRef st) as [children|] eqn:Hg;
      [|unfold rebuild; rewrite Hg; by split].
    split.
    + rewrite (rebuild_printMeshRef three q st children Hg),
              (rebuild_nextAddr q st children Hg).
      intros mesh [= <-]. simpl. lia.
    + rewrite (rebuild_loading q st children Hg),
              (rebuild_nextAddr q st children Hg).
      apply Forall_app_2.
      * eapply Forall_impl; [exact Hload|]. simpl. lia.
      * destruct (designTexture q) as [url|]; [destruct (truthy url)|];
          repeat constructor; simpl; lia.
  - unfold colorEffect. by destruct (shirtGroupRef st).
  - unfold textureEffect.
    destruct (printMeshRef st) as [mesh|] eqn:Hr;
      [|simpl; split; [by rewrite Hr | done]].
    destruct (updateTexture_frame (designTexture q) (Some mesh) st)
      as (_ & Hr' & _ & Hn).
    split.
    + rewrite Hr', Hn, Hr. exact Href.
    + rewrite updateTexture_loading, Hn.
      apply Forall_app_2; [done|].
      destruct (designTexture q) as [url|]; [destruct (truthy url)|];
        repeat constructor; simpl; by apply Href.
  - destruct (loaded_frame i tex st) as (_ & Hr & _ & Hn).
    split; [by rewrite Hr, Hn|]. rewrite Hn.
    unfold loaded. destruct (loading st !! i) as [[url mat]|]; [|done].
    simpl. by apply Forall_delete.
  - split; [done|]. simpl. by apply Forall_delete.
Qed.

Lemma updates_fresh (us : list Update) :
  forall st, fresh_inv st -> fresh_inv (updates three st us).
Proof.
  unfold updates. induction us as [|u us IH]; intros st Hst; simpl; [done|].
  apply IH. by apply update_fresh.
Qed.

Lemma unmounted_fresh : fresh_inv unmounted.
Proof. split; [discriminate | constructor]. Qed.

(** X16. A texture load that was pending before a rebuild and decodes
    after it writes to the material of the decal it was started for,
    which the rebuild has dropped: the material of the new decal, and
    the group, stay as the rebuild left them. *)
Theorem stale_load_misses_new_decal (us : list Update) (p : Props)
    (children : list Mesh) (i : nat) (tex : Texture) :
  shirtGroupRef (updates three unmounted us) = Some children ->
  i < length (loading (updates three unmounted us)) ->
  materials (loaded i tex (rebuild three p (updates three unmounted us)))
    !! (nextAddr (updates three unmounted us) + 5)
  = materials (rebuild three p (updates three unmounted us))
    !! (nextAddr (updates three unmounted us) + 5) /\
  printMeshRef (loaded i tex (rebuild three p (updates three unmounted us)))
  = Some (decalMesh three (nextAddr (updates three unmounted us) + 6)
                    (nextAddr (updates three unmounted us) + 5)) /\
  shirtGroupRef (loaded i tex (rebuild three p (updates three unmounted us)))
  = shirtGroupRef (rebuild three p (updates three unmounted us)).
Proof.
  intros Hg Hi.
  destruct (updates_fresh us unmounted unmounted_fresh) as [_ Hload].
  set (st := updates three unmounted us) in *.
  destruct (loaded_frame i tex (rebuild three p st)) as (-> & -> & _).
  split; [|split; [exact (rebuild_printMeshRef three p st children Hg) | done]].
  unfold loaded. rewrite (rebuild_loading p st children Hg).
  rewrite lookup_app_l by done.
  destruct (lookup_lt_is_Some_2 _ _ Hi) as [[url mat] Hlook].
  rewrite Hlook. simpl.
  pose proof (proj1 (Forall_lookup _ _) Hload i _ Hlook) as Hmat.
  simpl in Hmat. rewrite lookup_alter_ne by lia. done.
Qed.

(** *** Overlapping loads on one decal *)

Section Overlap.

Variables (st : Refs) (mesh : Mesh) (m : Material).
Hypothesis current : printMeshRef st = Some mesh.
Hypothesis exists_m : materials st !! material mesh = Some m.

Lemma textureEffect_bind (q : Props) url :
  designTexture q = Some url -> truthy url = true ->
  textureEffect q st = with_loading (loading st ++ [(url, material mesh)]) st.
Proof using current.
  intros Hq Ht. unfold textureEffect, updateTexture.
  by rewrite current, Hq, Ht.
Qed.

(** X17. Removing the artwork while its image is still decoding does
    not last. The removal clears the decal at once (opacity 0, no map),
    but the pending load was not cancelled: when it has decoded the
    image, the decal shows the artwork again (opacity 1), although no
    artwork is bound any more. *)
Theorem removal_loses_to_pending_load (q q' : Props) (url : jsstring)
    (tex : Texture) :
  designTexture q = Some url -> truthy url = true ->
  truthy_opt (designTexture q') = false ->
  materials (textureEffect q' (textureEffect q st)) !! material mesh
    = Some (clearMap m) /\
  opacity (clearMap m) = 0%float /\
  loading (textureEffect q' (textureEffect q st))
    = loading st ++ [(url, material mesh)] /\
  materials (loaded (length (loading st)) tex
               (textureEffect q' (textureEffect q st))) !! material mesh
    = Some (bindMap tex (clearMap m)) /\
  opacity (bindMap tex (clearMap m)) = 1%float /\
  map (bindMap tex (clearMap m))
    = Some {| image := image tex; colorSpace := SRGBColorSpace;
              flipY := true |}.
Proof using current exists_m.
  intros Hq Ht Hq'.
  rewrite (textureEffect_bind q url Hq Ht).
  assert (textureEffect q'
            (with_loading (loading st ++ [(url, material mesh)]) st) =
          with_loading (loading st ++ [(url, material mesh)])
            (with_materials (alter clearMap (material mesh) (materials st)) st))
    as ->.
  { unfold textureEffect, updateTexture. simpl. rewrite current.
    destruct (designTexture q') as [u|]; [|done].
    simpl in Hq'. by rewrite Hq'. }
  simpl. rewrite lookup_alter_eq, exists_m. simpl.
  do 3 (split; [done|]). split; [|done].
  unfold loaded. simpl. rewrite list_lookup_middle by done. simpl.
  by rewrite lookup_alter_eq, lookup_alter_eq, exists_m.
Qed.

(** X18. Two artworks bound one after the other are decoded by two
    loads that both write to the decal, and the load that finishes last
    decides: when the second artwork is decoded first, the decal ends up
    showing the first one, which is no longer the bound artwork. *)
Theorem last_decoded_wins (qa qb : Props) (urlA urlB : jsstring)
    (texA texB : Texture) :
  designTexture qa = Some urlA -> truthy urlA = true ->
  designTexture qb = Some urlB -> truthy urlB = true ->
  loading (textureEffect qb (textureEffect qa st))
    = loading st ++ [(urlA, material mesh); (urlB, material mesh)] /\
  materials (loaded (length (loading st)) texA
               (loaded (S (length (loading st))) texB
                  (textureEffect qb (textureEffect qa st))))
    !! material mesh
    = Some (bindMap texA (bindMap texB m)) /\
  map (bindMap texA (bindMap texB m))
    = Some {| image := image texA; colorSpace := SRGBColorSpace;
              flipY := true |} /\
  loading (loaded (length (loading st)) texA
             (loaded (S (length (loading st))) texB
                (textureEffect qb (textureEffect qa st))))
    = loading st.
Proof using current exists_m.
  intros Ha Hta Hb Htb.
  rewrite (textureEffect_bind qa urlA Ha Hta).
  assert (textureEffect qb
            (with_loading (loading st ++ [(urlA, material mesh)]) st) =
          with_loading
            (loading st ++ [(urlA, material mesh); (urlB, material mesh)]) st)
    as ->.
  { unfold textureEffect, updateTexture. simpl.
    rewrite current, Hb, Htb. simpl. by rewrite <- app_assoc. }
  split; [done|].
  assert (forall A (l : list A) x y, (l ++ [x; y]) !! S (length l) = Some y)
    as Hsnd.
  { intros A l x y. rewrite (cons_middle x l [y]), app_assoc.
    replace (S (length l)) with (length (l ++ [x]))
      by (rewrite length_app; simpl; lia).
    by apply list_lookup_middle. }
  assert (forall A (l : list A) x y, delete (S (length l)) (l ++ [x; y])
                                     = l ++ [x]) as Hdel.
  { intros A l x y. rewrite (cons_middle x l [y]), app_assoc.
    replace (S (length l)) with (length (l ++ [x]))
      by (rewrite length_app; simpl; lia).
    by rewrite delete_middle, app_nil_r. }
  rewrite (loaded_at _ (S (length (loading st))) urlB (material mesh) texB)
    by (simpl; apply Hsnd).
  simpl. rewrite Hdel.
  rewrite (loaded_at _ (length (loading st)) urlA (material mesh) texA)
    by (simpl; by apply list_lookup_middle).
  simpl. rewrite delete_middle, app_nil_r.
  by rewrite !lookup_alter_eq, exists_m.
Qed.

End Overlap.

(** *** Rebuilding and recolouring *)

Lemma is_Some_alter_inv (f : Material -> Material) (ms : gmap nat Material)
    i k :
  is_Some (alter f i ms !! k) -> is_Some (ms !! k).
Proof.
  rewrite lookup_alter. case_decide; [subst|done].
  by rewrite fmap_is_Some.
Qed.

Lemma update_alloc st u : alloc_inv st -> alloc_inv (update three st u).
Proof.
  intros [Hmesh Hmat]. destruct u as [c|q|q|q|i tex|i]; simpl.
  - destruct c; [|done]. split; [|done].
    intros l [= <-]. constructor.
  - destruct (shirtGroupRef st) as [children|] eqn:Hg;
      [|unfold rebuild; rewrite Hg; split; [intros ? ?; congruence | done]].
    split.
    + rewrite (rebuild_group three q st children Hg),
              (rebuild_nextAddr q st children Hg).
      intros l [= <-]. simpl.
      apply Forall_cons; split; [simpl; lia|].
      apply Forall_cons; split; [simpl; lia|].
      apply Forall_app_2.
      * eapply Forall_impl; [apply sleeveParts_fresh|].
        intros m (_ & _ & ?). lia.
      * repeat constructor; simpl; lia.
    + rewrite (rebuild_nextAddr q st children Hg).
      unfold rebuild. rewrite Hg, updateTexture_materials. simpl.
      intros k Hk.
      assert (is_Some (<[nextAddr st + 5 := printMat (fabricMaterial (fabricType q))]>
                         (<[nextAddr st := baseMaterial (shirtColor q)
                                             (fabricMaterial (fabricType q))]>
                            (materials st)) !! k)) as Hk'.
      { destruct (truthy_opt (designTexture q)); [done|].
        by apply is_Some_alter_inv in Hk. }
      destruct (decide (k = nextAddr st + 5)) as [->|?]; [lia|].
      rewrite lookup_insert_ne in Hk' by done.
      destruct (decide (k = nextAddr st)) as [->|?]; [lia|].
      rewrite lookup_insert_ne in Hk' by done.
      specialize (Hmat k Hk'). lia.
  - unfold alloc_inv.
    destruct (colorEffect_frame q st) as (-> & _ & _ & _ & ->).
    split; [done|]. intros k Hk. apply Hmat.
    destruct (shirtGroupRef st) as [l|] eqn:Hg;
      [|unfold colorEffect in Hk; by rewrite Hg in Hk].
    rewrite (colorEffect_materials q st l Hg), colorEffect_lookup in Hk.
    destruct (existsb _ l); [by rewrite fmap_is_Some in Hk | done].
  - unfold textureEffect, alloc_inv.
    destruct (updateTexture_frame (designTexture q) (printMeshRef st) st)
      as (-> & _ & _ & ->).
    split; [done|]. intros k Hk. apply Hmat.
    destruct (printMeshRef st) as [mesh|]; [|done].
    rewrite updateTexture_materials in Hk.
    destruct (truthy_opt (designTexture q)); [done|].
    by apply is_Some_alter_inv in Hk.
  - unfold alloc_inv.
    destruct (loaded_frame i tex st) as (-> & _ & _ & ->).
    split; [done|]. intros k Hk. apply Hmat.
    unfold loaded in Hk. destruct (loading st !! i) as [[url mat]|]; [|done].
    simpl in Hk. by apply is_Some_alter_inv in Hk.
  - by split.
Qed.

Lemma updates_alloc (us : list Update) :
  forall st, alloc_inv st -> alloc_inv (updates three st us).
Proof.
  unfold updates. induction us as [|u us IH]; intros st Hst; simpl; [done|].
  apply IH. by apply update_alloc.
Qed.

Lemma unmounted_alloc : alloc_inv unmounted.
Proof.
  split; [discriminate|]. intros k [m Hk]. simpl in Hk.
  by rewrite lookup_empty in Hk.
Qed.

(** X19. In every state the component reaches, a rebuild leaves exactly
    five children, in the order torso, collar, left and right sleeve or
    cap, decal. They are new objects: their five identities are distinct,
    none is the identity of a child the group held before, and the two
    material objects they use did not exist before. The geometry of
    every child the group held before is disposed of, once per child and
    in order. *)
Theorem rebuild_replaces_group (us : list Update) (p : Props)
    (st : Refs) (children : list Mesh) :
  st = updates three unmounted us ->
  shirtGroupRef st = Some children ->
  exists group,
    shirtGroupRef (rebuild three p st) = Some group /\
    part <$> group =
      (if sleeved (sleeveLength p)
       then [torso; collar; leftArm; rightArm; printMesh]
       else [torso; collar; leftCap; rightCap; printMesh]) /\
    addr <$> group =
      [nextAddr st + 1; nextAddr st + 2; nextAddr st + 3; nextAddr st + 4;
       nextAddr st + 6] /\
    NoDup (addr <$> group) /\
    Forall (fun m => Forall (fun old => addr m <> addr old) children) group /\
    material <$> group =
      [nextAddr st; nextAddr st; nextAddr st; nextAddr st; nextAddr st + 5] /\
    Forall (fun m => materials st !! material m = None) group /\
    disposed (rebuild three p st) = disposed st ++ (geometry <$> children).
Proof.
  intros Hst Hg.
  destruct (updates_alloc us unmounted unmounted_alloc) as [Hmesh Hmat].
  rewrite <- Hst in Hmesh, Hmat. specialize (Hmesh children Hg).
  eexists. split; [exact (rebuild_group three p st children Hg)|].
  rewrite (rebuild_disposed three p st children Hg).
  assert (forall a b c d e : nat,
            a < b -> b < c -> c < d -> d < e -> NoDup [a; b; c; d; e]) as Hnd.
  { intros a b c d e ? ? ? ?.
    repeat (apply NoDup_cons; split;
            [rewrite ?elem_of_cons, elem_of_nil; lia|]).
    apply NoDup_nil_2. }
  assert (forall k, nextAddr st <= k ->
            Forall (fun old => k <> addr old) children) as Hnew.
  { intros k Hk. eapply Forall_impl; [exact Hmesh|]. simpl. lia. }
  assert (forall k, nextAddr st <= k -> materials st !! k = None) as Hnone.
  { intros k Hk. apply eq_None_not_Some. intros Hs%Hmat. lia. }
  destruct (sleeveLength p).
  - rewrite sleeveParts_sleeveless. simpl.
    replace (nextAddr st + 3 + 1) with (nextAddr st + 4) by lia.
    split; [done|]. split; [done|]. split; [apply Hnd; lia|].
    split; [repeat (apply Forall_cons; split; [apply Hnew; simpl; lia|]);
            apply Forall_nil_2|].
    split; [done|]. split; [|done].
    repeat (apply Forall_cons; split; [apply Hnone; simpl; lia|]).
    apply Forall_nil_2.
  - rewrite (sleeveParts_sleeved three SHORT _ _ _ _ _ eq_refl). simpl.
    replace (nextAddr st + 3 + 1) with (nextAddr st + 4) by lia.
    split; [done|]. split; [done|]. split; [apply Hnd; lia|].
    split; [repeat (apply Forall_cons; split; [apply Hnew; simpl; lia|]);
            apply Forall_nil_2|].
    split; [done|]. split; [|done].
    repeat (apply Forall_cons; split; [apply Hnone; simpl; lia|]).
    apply Forall_nil_2.
  - rewrite (sleeveParts_sleeved three LONG _ _ _ _ _ eq_refl). simpl.
    replace (nextAddr st + 3 + 1) with (nextAddr st + 4) by lia.
    split; [done|]. split; [done|]. split; [apply Hnd; lia|].
    split; [repeat (apply Forall_cons; split; [apply Hnew; simpl; lia|]);
            apply Forall_nil_2|].
    split; [done|]. split; [|done].
    repeat (apply Forall_cons; split; [apply Hnone; simpl; lia|]).
    apply Forall_nil_2.
Qed.

Lemma with_materials_id st : with_materials (materials st) st = st.
Proof. by destruct st. Qed.

Lemma colorEffect_rebuild (p : Props) (st : Refs) :
  colorEffect p (rebuild three p st) = rebuild three p st.
Proof.
  destruct (shirtGroupRef st) as [children|] eqn:Hg.
  - pose proof (rebuild_group three p st children Hg) as Hgroup.
    pose proof (rebuild_printMeshRef three p st children Hg) as Href.
    pose proof (rebuild_shared_material three p st children Hg) as Hs.
    unfold colorEffect. rewrite Hgroup, Href.
    rewrite <- (with_materials_id (rebuild three p st)) at 3.
    f_equal. apply map_eq. intros k. rewrite colorEffect_lookup.
    destruct (existsb _ _) eqn:E; [|done].
    apply existsb_exists in E as (child & Hin & Hrec).
    unfold recolours in Hrec.
    apply andb_true_iff in Hrec as [Hnot Hk%Nat.eqb_eq].
    assert (material child = nextAddr st) as Hmat.
    { apply list_elem_of_In in Hin.
      rewrite !elem_of_app in Hin. destruct Hin as [Hin|[Hin|Hin]].
      - apply elem_of_cons in Hin as [->|Hin]; [done|].
        apply list_elem_of_singleton in Hin as ->. done.
      - pose proof (sleeveParts_fresh three (sleeveLength p) (nextAddr st)
                      (nextAddr st + 3)) as Hf.
        by destruct (proj1 (Forall_forall _ _) Hf child Hin) as (<- & _).
      - apply list_elem_of_singleton in Hin as ->.
        simpl in Hnot. by rewrite Nat.eqb_refl in Hnot. }
    rewrite <- Hk, Hmat, Hs. done.
  - unfold rebuild. rewrite Hg. unfold colorEffect. by rewrite Hg.
Qed.

(** X20. Recolouring is idempotent, and it changes nothing right after
    a rebuild with the same colour: the colour effect that follows the
    rebuild on mount finds the shared material already in that colour. *)
Theorem recolor_settles (p : Props) (st : Refs) :
  colorEffect p (colorEffect p st) = colorEffect p st /\
  colorEffect p (rebuild three p st) = rebuild three p st.
Proof.
  split; [|apply colorEffect_rebuild].
  unfold colorEffect.
  destruct (shirtGroupRef st) as [l|] eqn:Hg; simpl; [|by rewrite Hg].
  rewrite Hg. unfold with_materials. simpl. f_equal.
  apply map_eq. intros k. rewrite !colorEffect_lookup.
  destruct (existsb _ l); [|done]. by destruct (materials st !! k).
Qed.

End ViewerMore.

Section Mounting.
Import Viewer Spec Inv.

Variable three : Shape -> list Vertex.

(** X21. Mounting the component runs the scene set-up, the rebuild, the
    colour effect and the texture effect in this order. Afterwards the
    group holds the five parts, the shared material has the shirt colour
    and the decal is transparent; and when an artwork is bound, its image
    is being loaded twice for the same decal, once by the rebuild and
    once by the texture effect. *)
Theorem mount_loads_artwork_twice (p : Props) :
  (exists group,
     shirtGroupRef (updates three unmounted (mount p)) = Some group /\
     length group = 5 /\
     printMeshRef (updates three unmounted (mount p)) = last group) /\
  color <$> materials (updates three unmounted (mount p)) !! 0
    = Some (Style (shirtColor p)) /\
  opacity <$> materials (updates three unmounted (mount p)) !! 5
    = Some 0%float /\
  loading (updates three unmounted (mount p)) =
    match designTexture p with
    | Some url => if truthy url then [(url, 5); (url, 5)] else []
    | None => []
    end.
Proof.
  destruct p as [c tex sleeve fabric]. unfold mount, updates.
  cbn [foldl update shirtColor designTexture].
  set (q := mkProps c tex sleeve fabric).
  set (st0 := initScene true unmounted).
  assert (shirtGroupRef st0 = Some []) as Hg by done.
  assert (nextAddr st0 = 0) as Hn by done.
  assert (loading st0 = []) as Hl0 by done.
  pose proof (rebuild_group three q st0 [] Hg) as Hgroup.
  pose proof (rebuild_printMeshRef three q st0 [] Hg) as Href.
  pose proof (rebuild_shared_material three q st0 [] Hg) as Hs.
  pose proof (rebuild_decal_material three q st0 [] Hg) as Hd.
  pose proof (rebuild_loading three q st0 [] Hg) as Hl.
  rewrite Hn in Hgroup, Href, Hs, Hd, Hl. rewrite Hl0 in Hl.
  cbn [Nat.add app designTexture shirtColor q] in Hgroup, Href, Hs, Hd, Hl.
  rewrite (colorEffect_rebuild three q st0).
  set (st := rebuild three q st0) in *.
  unfold textureEffect. rewrite Href.
  destruct (updateTexture_frame (designTexture q)
              (Some (decalMesh three 6 5)) st) as (-> & -> & _).
  rewrite updateTexture_materials, updateTexture_loading, Hl.
  cbn [designTexture q material decalMesh].
  split.
  - eexists. split; [exact Hgroup|].
    destruct sleeve;
      [rewrite sleeveParts_sleeveless
      |rewrite (sleeveParts_sleeved three SHORT _ _ _ _ _ eq_refl)
      |rewrite (sleeveParts_sleeved three LONG _ _ _ _ _ eq_refl)];
      by split.
  - destruct tex as [[|ch url]|]; cbn [truthy_opt truthy] in *.
    + rewrite lookup_alter_ne by done. rewrite Hs.
      rewrite lookup_alter_eq, Hd. done.
    + by rewrite Hs, Hd.
    + rewrite lookup_alter_ne by done. rewrite Hs.
      rewrite lookup_alter_eq, Hd. done.
Qed.

End Mounting.

(** X15 on the component as it is mounted with an artwork: the rebuild
    and the texture effect each start a load; the decal is transparent
    until the second one decodes, the first one still pending. *)
Lemma rebuild_rebinds_artwork_witness :
  Viewer.opacity <$>
    Viewer.materials
      (Viewer.updates sample_three
         (Viewer.rebuild sample_three sample_props_art sample_mounted)
         [Viewer.Recolor sample_props_art; Viewer.Retexture sample_props_art])
      !! 5
  = Some 0%float /\
  Viewer.opacity <$>
    Viewer.materials
      (Viewer.loaded 1 sample_texture
         (Viewer.updates sample_three
            (Viewer.rebuild sample_three sample_props_art sample_mounted)
            [Viewer.Recolor sample_props_art;
             Viewer.Retexture sample_props_art])) !! 5
  = Some 1%float.
Proof.
  destruct (rebuild_rebinds_artwork sample_three sample_props_art
              sample_mounted [] sample_url eq_refl eq_refl eq_refl)
    as (_ & H).
  destruct (H [Viewer.Recolor sample_props_art;
               Viewer.Retexture sample_props_art] _ eq_refl eq_refl)
    as (_ & _ & (mat & Hm & Ho & _) & Hload).
  destruct (Hload 1 sample_url sample_texture eq_refl)
    as (_ & mat' & Hm' & Ho' & _).
  split.
  - exact (eq_trans (f_equal (fmap Viewer.opacity) Hm) (f_equal Some Ho)).
  - exact (eq_trans (f_equal (fmap Viewer.opacity) Hm') (f_equal Some Ho')).
Defined.

(** X16 on a shirt that is rebuilt while its artwork is decoding: the
    new decal, at address 12, stays transparent. *)
Lemma stale_load_misses_new_decal_witness :
  Viewer.opacity <$>
    Viewer.materials
      (Viewer.loaded 0 sample_texture
         (Viewer.rebuild sample_three sample_props_art
            (Viewer.updates sample_three Viewer.unmounted sample_life))) !! 12
  = Some 0%float.
Proof.
  assert (0 < length (Viewer.loading
                        (Viewer.updates sample_three Viewer.unmounted
                                        sample_life))) as Hi
    by (vm_compute; lia).
  destruct (stale_load_misses_new_decal sample_three sample_life
              sample_props_art _ 0 sample_texture eq_refl Hi) as (H & _).
  change (Viewer.nextAddr
            (Viewer.updates sample_three Viewer.unmounted sample_life) + 5)
    with 12 in H.
  rewrite H. reflexivity.
Defined.

(** X17 on the default shirt: the artwork is back although it was
    removed. *)
Lemma removal_loses_to_pending_load_witness :
  Viewer.opacity <$>
    Viewer.materials
      (Viewer.loaded 0 sample_texture
         (Viewer.textureEffect sample_props
            (Viewer.textureEffect sample_props_art sample_built)))
    !! Viewer.material sample_decal
  = Some 1%float.
Proof.
  destruct (removal_loses_to_pending_load sample_built sample_decal _
              eq_refl eq_refl sample_props_art sample_props sample_url
              sample_texture eq_refl eq_refl eq_refl)
    as (_ & _ & _ & H & _).
  change (length (Viewer.loading sample_built)) with 0 in H.
  by rewrite H.
Defined.

(** X18 on the default shirt: the second artwork is bound, the first one
    is shown. *)
Lemma last_decoded_wins_witness :
  Viewer.map <$>
    Viewer.materials
      (Viewer.loaded 0 sample_texture
         (Viewer.loaded 1 sample_texture2
            (Viewer.textureEffect sample_props_art2
               (Viewer.textureEffect sample_props_art sample_built))))
    !! Viewer.material sample_decal
  = Some (Some {| Viewer.image := sample_url;
                  Viewer.colorSpace := Viewer.SRGBColorSpace;
                  Viewer.flipY := true |}).
Proof.
  destruct (last_decoded_wins sample_built sample_decal _
              eq_refl eq_refl sample_props_art sample_props_art2
              sample_url sample_url2 sample_texture sample_texture2
              eq_refl eq_refl eq_refl eq_refl)
    as (_ & H & _).
  change (length (Viewer.loading sample_built)) with 0 in H.
  by rewrite H.
Defined.

(** X19 on the default shirt, rebuilt without sleeves. *)
Lemma rebuild_replaces_group_witness :
  exists group,
    Viewer.shirtGroupRef
      (Viewer.rebuild sample_three
         {| Viewer.shirtColor := DEFAULT_SHIRT_COLOR;
            Viewer.designTexture := None;
            Viewer.sleeveLength := SLEEVELESS;
            Viewer.fabricType := SILK |} sample_built) = Some group /\
    Viewer.addr <$> group = [8; 9; 10; 11; 13] /\
    length (Viewer.disposed
              (Viewer.rebuild sample_three
                 {| Viewer.shirtColor := DEFAULT_SHIRT_COLOR;
                    Viewer.designTexture := None;
                    Viewer.sleeveLength := SLEEVELESS;
                    Viewer.fabricType := SILK |} sample_built)) = 5.
Proof.
  destruct (rebuild_replaces_group sample_three
              [Viewer.Mount true; Viewer.Rebuild sample_props]
              {| Viewer.shirtColor := DEFAULT_SHIRT_COLOR;
                 Viewer.designTexture := None;
                 Viewer.sleeveLength := SLEEVELESS;
                 Viewer.fabricType := SILK |} sample_built _ eq_refl eq_refl)
    as (group & Hg & _ & Ha & _ & _ & _ & _ & Hd).
  exists group. split; [exact Hg|]. split; [exact Ha|].
  by rewrite Hd.
Defined.
